(** * The dance area of the town service and its frontend controller

    A shallow embedding of
      - [townService/src/town/DanceArea.ts]  (module [TownService]) and
      - [frontend/src/classes/DanceAreaController.ts]  (module [Frontend]),
    followed by the properties of the two classes.

    Conventions of the embedding.
      - A JavaScript [number] that takes part in floating-point arithmetic
        (the outcome of [Math.random], its products, the [duration] of an
        arrow) is a binary64 value, [JsNum.JsNumber]: the [spec_float] of
        the standard library at precision 53 and maximal exponent 1024, with
        its round-to-nearest-even multiplication and addition.
      - The [timer] of the controller, which its setter compares by [!=],
        is a binary64 value too, NaN and the two zeros included.
      - A [number] that the code only copies or multiplies as an integer
        (the [difficulty] enum, [score], map geometry, the timer of the
        server) is a [Z].
      - A value that may be [undefined] or [null] at run time is an [option].
      - Calls of [Math.random] thread a generator state ([Rand]); events sent
        through an emitter are collected in the order they are sent. *)

From Stdlib Require Import ZArith List Bool String Lia.
From Stdlib Require Import Floats.SpecFloat.
Import ListNotations.
Open Scope Z_scope.

(* ================================================================== *)
(** * Part I: definitions                                              *)
(* ================================================================== *)

(** ** JavaScript numbers *)

Module JsNum.

Definition prec : Z := 53.
Definition emax : Z := 1024.

Definition JsNumber : Type := spec_float.

(** The double denoted by an integer literal. *)
Definition num (z : Z) : JsNumber := binary_normalize prec emax z 0 false.

(** [a * b] and [a + b] on doubles. *)
Definition js_mul : JsNumber -> JsNumber -> JsNumber := SFmul prec emax.
Definition js_add : JsNumber -> JsNumber -> JsNumber := SFadd prec emax.

(** [Math.floor]: a double whose exponent is not negative is an integer
    already; otherwise the mantissa is shifted right, which rounds towards
    minus infinity on [Z].  Zeros, infinities and NaN are returned as they
    are. *)
Definition Math_floor (x : JsNumber) : JsNumber :=
  match x with
  | S754_finite s m e =>
      if 0 <=? e then x else num (Z.shiftl (cond_Zopp s (Zpos m)) e)
  | _ => x
  end.

(** The integer a double denotes, when it denotes one. *)
Definition integer_value (i : JsNumber) : option Z :=
  match i with
  | S754_zero _ => Some 0
  | S754_finite s m e =>
      let v := cond_Zopp s (Zpos m) in
      if 0 <=? e then Some (v * 2 ^ e)
      else if v mod 2 ^ (- e) =? 0 then Some (v / 2 ^ (- e)) else None
  | _ => None
  end.

(** [xs[i]] for an array [xs] and a number [i]: the element at an integer
    index inside the array, [undefined] ([None]) everywhere else. *)
Definition js_get {A : Type} (xs : list A) (i : JsNumber) : option A :=
  match integer_value i with
  | Some z =>
      if (0 <=? z) && (z <? Z.of_nat (List.length xs))
      then nth_error xs (Z.to_nat z) else None
  | None => None
  end.

(** What [Math.random] may return: a double of positive sign, greater
    than or equal to 0 and strictly less than 1. *)
Definition random_outcome (r : JsNumber) : bool :=
  match r with
  | S754_zero false => true
  | S754_finite false m e => bounded prec emax m e && SFltb r (num 1)
  | _ => false
  end.

(** The random source: the [n]-th call of [Math.random] returns
    [outcomes n]; [position] counts the calls made so far. *)
Record Rng : Type := mkRng { outcomes : nat -> JsNumber; position : nat }.

Definition Rand (A : Type) : Type := Rng -> A * Rng.

Definition ret {A : Type} (a : A) : Rand A := fun g => (a, g).

Definition bind {A B : Type} (c : Rand A) (k : A -> Rand B) : Rand B :=
  fun g => let (a, g') := c g in k a g'.

Definition Math_random : Rand JsNumber :=
  fun g => (outcomes g (position g), mkRng (outcomes g) (S (position g))).

(** Invariant of the right shift that precedes rounding: after [n] one-bit
    shifts of [M] the record holds the quotient of [M] by [2 ^ n], and its
    round bit is set only when the remainder is at least half of [2 ^ n]. *)
Definition shr_inv (M n : Z) (x : shr_record) : Prop :=
  0 <= shr_m x /\
  shr_m x * 2 ^ n <= M < (shr_m x + 1) * 2 ^ n /\
  (shr_r x = true -> (2 * shr_m x + 1) * 2 ^ n <= 2 * M).

End JsNum.

Declare Scope rand_scope.
Delimit Scope rand_scope with rand.
Notation "x <- c ;; k" := (JsNum.bind c (fun x => k))
  (at level 61, c at next level, right associativity) : rand_scope.

(** ** The types shared by both sides ([types/CoveyTownSocket]) *)

Module CoveyTownSocket.
Import JsNum.

Inductive ArrowDirection : Type := L | R | U | D.

(** The four glyphs U+21E6, U+21E8, U+21E7 and U+21E9. *)
Inductive Display : Type :=
| LeftwardsWhiteArrow
| RightwardsWhiteArrow
| UpwardsWhiteArrow
| DownwardsWhiteArrow.

(** An arrow; a property read from an array may be [undefined]. *)
Record Arrow : Type := mkArrow {
  display : option Display;
  direction : option ArrowDirection;
  duration : JsNumber
}.

Record ScoreObject : Type := mkScore { userId : string; score : Z }.

(** Modelled from the spec: [Difficulty] is a numeric enum (10, 15, ...);
    its declaration is not part of the sources. *)
Definition Difficulty : Type := Z.

Record BoundingBox : Type := mkBox { x : Z; y : Z; width : Z; height : Z }.

End CoveyTownSocket.

(** ** The server side: [townService/src/town/DanceArea.ts] *)

Module TownService.
Import JsNum CoveyTownSocket.
Local Open Scope rand_scope.

Definition ARROWLENGTH : Z := 20.

(** The wire model of a dance area.  A leaderboard slot may be a hole and
    [currentScore] may be [null]. *)
Record DanceAreaModel : Type := mkModel {
  id : string;
  difficulty : Difficulty;
  correct : list Arrow;
  userClicks : list Arrow;
  leaderboard : list (option ScoreObject);
  currentScore : option ScoreObject;
  timer : Z
}.

(** The object handed to the constructor: typed as a model, but any of its
    properties may be absent at run time. *)
Record ModelObject : Type := mkModelObject {
  obj_id : string;
  obj_difficulty : option Difficulty;
  obj_correct : option (list Arrow);
  obj_userClicks : option (list Arrow);
  obj_leaderboard : option (list (option ScoreObject));
  obj_currentScore : option ScoreObject;
  obj_timer : option Z
}.

Definition object_of_model (m : DanceAreaModel) : ModelObject :=
  {| obj_id := id m;
     obj_difficulty := Some (difficulty m);
     obj_correct := Some (correct m);
     obj_userClicks := Some (userClicks m);
     obj_leaderboard := Some (leaderboard m);
     obj_currentScore := currentScore m;
     obj_timer := Some (timer m) |}.

(** [v || d] on a number: [undefined] and 0 are falsy. *)
Definition or_number (v : option Z) (d : Z) : Z :=
  match v with
  | Some n => if n =? 0 then d else n
  | None => d
  end.

(** [v || d] on an array: every array is truthy, the empty one too. *)
Definition or_array {A : Type} (v : option (list A)) (d : list A) : list A :=
  match v with
  | Some l => l
  | None => d
  end.

(** [new Array(n)]: [n] empty slots. *)
Definition new_Array {A : Type} (n : nat) : list (option A) := repeat None n.

(** [!v] on an optional number. *)
Definition falsy (v : option Z) : bool :=
  match v with
  | Some n => n =? 0
  | None => true
  end.

(** Modelled from the spec: a player of the town, identified by its id;
    [player_interactableID] is the area reference of its location.  The
    class [Player] is not part of the sources. *)
Record Player : Type := mkPlayer {
  player_id : string;
  player_interactableID : option string
}.

(** The events sent through the town emitter. *)
Inductive TownEvent : Type :=
| playerMoved (p : Player)
| interactableUpdate (m : DanceAreaModel).

Definition is_interactableUpdate (ev : TownEvent) : bool :=
  match ev with
  | interactableUpdate _ => true
  | playerMoved _ => false
  end.

(** The state of a [DanceArea]: the fields of the base class
    ([area_id], [boundingBox], [_occupants]) and its own. *)
Record DanceArea : Type := mkDanceArea {
  area_id : string;
  boundingBox : BoundingBox;
  _occupants : list string;
  _difficulty : Difficulty;
  _correct : list Arrow;
  _userClicks : list Arrow;
  _leaderboard : list (option ScoreObject);
  _currentScore : option ScoreObject;
  _timer : Z
}.

Definition directions : list ArrowDirection := [L; R; U; D].

Definition displays : list Display :=
  [LeftwardsWhiteArrow; RightwardsWhiteArrow; UpwardsWhiteArrow;
   DownwardsWhiteArrow].

Definition array_length {A : Type} (xs : list A) : JsNumber :=
  num (Z.of_nat (List.length xs)).

(** One turn of the constructor's loop: three calls of [Math.random], in
    the order direction, display, duration. *)
Definition random_arrow : Rand Arrow :=
  r1 <- Math_random ;;
  let direction := js_get directions (Math_floor (js_mul r1 (array_length directions))) in
  r2 <- Math_random ;;
  let display := js_get displays (Math_floor (js_mul r2 (array_length displays))) in
  r3 <- Math_random ;;
  let duration := js_add (Math_floor (js_mul r3 (num 10))) (num 1) in
  ret (mkArrow display direction duration).

(** [for (let i = 0; i < ARROWLENGTH; i++) this._correct.push(...)], by
    the number of turns that remain. *)
Fixpoint push_arrows (turns : nat) (correct : list Arrow) : Rand (list Arrow) :=
  match turns with
  | O => ret correct
  | S turns' =>
      a <- random_arrow ;;
      push_arrows turns' (correct ++ [a])
  end.

(** The constructor.  Only [id], [difficulty], [leaderboard] and
    [currentScore] are read from the model object.
    Modelled from the spec: [super(id, coordinates, townEmitter)], the
    constructor of the base class, stores the id and the bounding box and
    starts with no occupant. *)
Definition new_DanceArea (model : ModelObject) (coordinates : BoundingBox)
  : Rand DanceArea :=
  let difficulty := or_number (obj_difficulty model) 15 in
  let leaderboard := or_array (obj_leaderboard model) (new_Array 10) in
  correct <- push_arrows (Z.to_nat ARROWLENGTH) [] ;;
  ret {| area_id := obj_id model;
         boundingBox := coordinates;
         _occupants := [];
         _difficulty := difficulty;
         _correct := correct;
         _userClicks := [];
         _leaderboard := leaderboard;
         _currentScore := obj_currentScore model;
         _timer := ARROWLENGTH * difficulty |}.

Definition toModel (this : DanceArea) : DanceAreaModel :=
  {| id := area_id this;
     difficulty := _difficulty this;
     correct := _correct this;
     userClicks := _userClicks this;
     leaderboard := _leaderboard this;
     currentScore := _currentScore this;
     timer := _timer this |}.

Definition updateModel (updatedModel : DanceAreaModel) (this : DanceArea)
  : DanceArea :=
  {| area_id := area_id this;
     boundingBox := boundingBox this;
     _occupants := _occupants this;
     _difficulty := difficulty updatedModel;
     _correct := correct updatedModel;
     _userClicks := userClicks updatedModel;
     _leaderboard := leaderboard updatedModel;
     _currentScore := currentScore updatedModel;
     _timer := timer updatedModel |}.

(** Modelled from the spec: [_emitAreaChanged] of the base class sends the
    full model of the area to every client of the town. *)
Definition _emitAreaChanged (this : DanceArea) : list TownEvent :=
  [interactableUpdate (toModel this)].

(** Modelled from the spec: [remove] of the base class [InteractableArea]
    takes the player out of the occupants, clears the area reference of the
    player and sends the occupant-change notification of the base class:
    the change of location of the player and the model of the area as it is
    then (every change of the occupants triggers a broadcast of the area's
    current model plus a broadcast of the player's updated location). *)
Definition InteractableArea_remove (player : Player) (this : DanceArea)
  : DanceArea * Player * list TownEvent :=
  let occupants :=
    filter (fun eachPlayer => negb (String.eqb eachPlayer (player_id player)))
           (_occupants this) in
  let player' := {| player_id := player_id player;
                    player_interactableID := None |} in
  ({| area_id := area_id this;
      boundingBox := boundingBox this;
      _occupants := occupants;
      _difficulty := _difficulty this;
      _correct := _correct this;
      _userClicks := _userClicks this;
      _leaderboard := _leaderboard this;
      _currentScore := _currentScore this;
      _timer := _timer this |},
   player',
   [playerMoved player']
   ++ _emitAreaChanged
        {| area_id := area_id this;
           boundingBox := boundingBox this;
           _occupants := occupants;
           _difficulty := _difficulty this;
           _correct := _correct this;
           _userClicks := _userClicks this;
           _leaderboard := _leaderboard this;
           _currentScore := _currentScore this;
           _timer := _timer this |}).

(** The assignments of the branch [this._occupants.length === 0];
    [this._leaderboard = this.leaderboard] assigns the field to itself. *)
Definition reset (this : DanceArea) : DanceArea :=
  let difficulty := 15 in
  {| area_id := area_id this;
     boundingBox := boundingBox this;
     _occupants := _occupants this;
     _difficulty := difficulty;
     _correct := [];
     _userClicks := [];
     _leaderboard := _leaderboard this;
     _currentScore := Some (mkScore "" 0);
     _timer := ARROWLENGTH * difficulty |}.

(** [remove]: the area, the player and the events sent, in order. *)
Definition remove (player : Player) (this : DanceArea)
  : DanceArea * Player * list TownEvent :=
  let '(this1, player1, sent1) := InteractableArea_remove player this in
  let this2 :=
    if (List.length (_occupants this1) =? 0)%nat then reset this1 else this1 in
  (this2, player1, sent1 ++ _emitAreaChanged this2).

(** The part of [ITiledMapObject] the factory reads. *)
Record ITiledMapObject : Type := mkMapObject {
  mo_name : string;
  mo_x : Z;
  mo_y : Z;
  mo_width : option Z;
  mo_height : option Z
}.

Inductive Result (A : Type) : Type :=
| Ok (a : A)
| Throw (message : string).
Arguments Ok {A} a.
Arguments Throw {A} message.

Definition missing_width_height : string :=
  "missing width/height for map object".

(** The factory.  [!mapObject.width || !mapObject.height] holds when either
    property is missing or falsy; otherwise both are present and become the
    width and height of the bounding box. *)
Definition fromMapObject (mapObject : ITiledMapObject) : Rand (Result DanceArea) :=
  match mo_width mapObject, mo_height mapObject with
  | Some w, Some h =>
      if falsy (Some w) || falsy (Some h)
      then ret (Throw missing_width_height)
      else
        let box := {| x := mo_x mapObject;
                      y := mo_y mapObject;
                      width := w;
                      height := h |} in
        a <- new_DanceArea
               {| obj_id := mo_name mapObject;
                  obj_difficulty := Some 15;
                  obj_correct := Some [];
                  obj_userClicks := Some [];
                  obj_leaderboard := Some [];
                  obj_currentScore := Some (mkScore "" 0);
                  obj_timer := Some (ARROWLENGTH * 15) |}
               box ;;
        ret (Ok a)
  | _, _ => ret (Throw missing_width_height)
  end.

(** An arrow as the constructor's loop is meant to make it: an integer
    duration from 1 to 10, a direction out of [directions] and a glyph out
    of [displays]. *)
Definition generated_arrow (a : Arrow) : Prop :=
  (exists z, 1 <= z <= 10 /\ duration a = num z) /\
  In (direction a) (map Some directions) /\
  In (display a) (map Some displays).

(** A random source all of whose outcomes are such as [Math.random] may
    return. *)
Definition random_source (g : Rng) : Prop :=
  forall n, random_outcome (outcomes g n) = true.

End TownService.

(** ** The client side: [frontend/src/classes/DanceAreaController.ts] *)

Module Frontend.
Import JsNum CoveyTownSocket.

(** An array or object of the JavaScript heap, as a value: the place where
    it lives and what it holds.  [None] stands for [undefined] and [null]. *)
Record Ref (A : Type) : Type := mkRef { addr : positive; deref : A }.
Arguments mkRef {A} addr deref.
Arguments addr {A} r.
Arguments deref {A} r.

Definition JsObject (A : Type) : Type := option (Ref A).

(** [a != b] on arrays and objects: two objects are equal when they are
    the same object; [undefined] and [null] are equal to each other only. *)
Definition loose_neq {A : Type} (a b : JsObject A) : bool :=
  match a, b with
  | None, None => false
  | Some ra, Some rb => negb (Pos.eqb (addr ra) (addr rb))
  | _, _ => true
  end.

(** [a !== b] on the integers of [Difficulty]. *)
Definition number_neq (a b : Z) : bool := negb (a =? b).

(** [a != b] on numbers: NaN differs from every number, itself included,
    and the two zeros do not differ. *)
Definition loose_neq_number (a b : JsNumber) : bool := negb (SFeqb a b).

Record DanceAreaModel : Type := mkModel {
  id : string;
  difficulty : Difficulty;
  correct : JsObject (list Arrow);
  userClicks : JsObject (list Arrow);
  leaderboard : JsObject (list ScoreObject);
  currentScore : JsObject ScoreObject;
  timer : JsNumber
}.

(** [DanceAreaEvents]: an emitted event and the value its listeners get. *)
Inductive DanceAreaEvents : Type :=
| difficultyChange (difficulty : Difficulty)
| currentScoreChange (currentScore : JsObject ScoreObject)
| timerChange (timer : JsNumber)
| correctChange (correct : JsObject (list Arrow))
| userClicksChange (userClicks : JsObject (list Arrow))
| leaderboardChange (leaderboard : JsObject (list ScoreObject)).

(** The controller: its model and the events it has emitted, oldest
    first.  The model is the object given to the constructor; the
    controller's methods are its only writers here. *)
Record DanceAreaController : Type := mkController {
  _model : DanceAreaModel;
  emitted : list DanceAreaEvents
}.

Definition new_DanceAreaController (danceAreaModel : DanceAreaModel)
  : DanceAreaController :=
  {| _model := danceAreaModel; emitted := [] |}.

Definition emit (ev : DanceAreaEvents) (this : DanceAreaController)
  : DanceAreaController :=
  {| _model := _model this; emitted := emitted this ++ [ev] |}.

(** Assignments to one property of [this._model]. *)
Definition assign (f : DanceAreaModel -> DanceAreaModel)
    (this : DanceAreaController) : DanceAreaController :=
  {| _model := f (_model this); emitted := emitted this |}.

Definition with_difficulty (v : Difficulty) (m : DanceAreaModel) :=
  mkModel (id m) v (correct m) (userClicks m) (leaderboard m)
          (currentScore m) (timer m).
Definition with_correct (v : JsObject (list Arrow)) (m : DanceAreaModel) :=
  mkModel (id m) (difficulty m) v (userClicks m) (leaderboard m)
          (currentScore m) (timer m).
Definition with_userClicks (v : JsObject (list Arrow)) (m : DanceAreaModel) :=
  mkModel (id m) (difficulty m) (correct m) v (leaderboard m)
          (currentScore m) (timer m).
Definition with_leaderboard (v : JsObject (list ScoreObject)) (m : DanceAreaModel) :=
  mkModel (id m) (difficulty m) (correct m) (userClicks m) v
          (currentScore m) (timer m).
Definition with_currentScore (v : JsObject ScoreObject) (m : DanceAreaModel) :=
  mkModel (id m) (difficulty m) (correct m) (userClicks m) (leaderboard m)
          v (timer m).
Definition with_timer (v : JsNumber) (m : DanceAreaModel) :=
  mkModel (id m) (difficulty m) (correct m) (userClicks m) (leaderboard m)
          (currentScore m) v.

(** The accessors.  The one that reads the difficulty is spelt
    [defficulty] in the class. *)
Definition get_id (this : DanceAreaController) := id (_model this).
Definition defficulty (this : DanceAreaController) := difficulty (_model this).
Definition get_timer (this : DanceAreaController) := timer (_model this).
Definition get_currentScore (this : DanceAreaController) :=
  currentScore (_model this).
Definition get_correct (this : DanceAreaController) := correct (_model this).
Definition get_userClicks (this : DanceAreaController) :=
  userClicks (_model this).
Definition get_leaderboard (this : DanceAreaController) :=
  leaderboard (_model this).

Definition set_difficulty (difficulty' : Difficulty) (this : DanceAreaController) :=
  if number_neq (difficulty (_model this)) difficulty'
  then emit (difficultyChange difficulty')
            (assign (with_difficulty difficulty') this)
  else this.

Definition set_timer (timer' : JsNumber) (this : DanceAreaController) :=
  if loose_neq_number (timer (_model this)) timer'
  then emit (timerChange timer') (assign (with_timer timer') this)
  else this.

Definition set_currentScore (currentScore' : JsObject ScoreObject)
    (this : DanceAreaController) :=
  if loose_neq (currentScore (_model this)) (get_currentScore this)
  then emit (currentScoreChange currentScore')
            (assign (with_currentScore currentScore') this)
  else this.

Definition set_correct (correct' : JsObject (list Arrow))
    (this : DanceAreaController) :=
  if loose_neq (correct (_model this)) (get_correct this)
  then emit (correctChange correct') (assign (with_correct correct') this)
  else this.

Definition set_userClicks (userClicks' : JsObject (list Arrow))
    (this : DanceAreaController) :=
  if loose_neq (userClicks (_model this)) (get_userClicks this)
  then emit (userClicksChange userClicks')
            (assign (with_userClicks userClicks') this)
  else this.

(** The parameter of this setter is not used in its body. *)
Definition set_leaderboard (userClicks' : JsObject (list ScoreObject))
    (this : DanceAreaController) :=
  if loose_neq (leaderboard (_model this)) (get_leaderboard this)
  then
    let this1 := assign (with_leaderboard (get_leaderboard this)) this in
    emit (leaderboardChange (get_leaderboard this1)) this1
  else this.

Definition danceAreaModel (this : DanceAreaController) : DanceAreaModel :=
  _model this.

Definition updateFrom (updatedModel : DanceAreaModel)
    (this : DanceAreaController) : DanceAreaController :=
  let this1 := set_difficulty (difficulty updatedModel) this in
  let this2 := set_timer (timer updatedModel) this1 in
  set_currentScore (currentScore updatedModel) this2.

(** The operations a client of the controller can invoke on it. *)
Inductive Operation : Type :=
| SetDifficulty (v : Difficulty)
| SetTimer (v : JsNumber)
| SetCurrentScore (v : JsObject ScoreObject)
| SetCorrect (v : JsObject (list Arrow))
| SetUserClicks (v : JsObject (list Arrow))
| SetLeaderboard (v : JsObject (list ScoreObject))
| UpdateFrom (updatedModel : DanceAreaModel).

Definition invoke (op : Operation) (this : DanceAreaController)
  : DanceAreaController :=
  match op with
  | SetDifficulty v => set_difficulty v this
  | SetTimer v => set_timer v this
  | SetCurrentScore v => set_currentScore v this
  | SetCorrect v => set_correct v this
  | SetUserClicks v => set_userClicks v this
  | SetLeaderboard v => set_leaderboard v this
  | UpdateFrom m => updateFrom m this
  end.

(** A sequence of operations, the first of the list first. *)
Definition invoke_all (ops : list Operation) (this : DanceAreaController)
  : DanceAreaController :=
  fold_left (fun c op => invoke op c) ops this.

End Frontend.

(** ** Concrete inputs *)

Module Samples.
Import JsNum CoveyTownSocket.
Local Open Scope string_scope.

(** The doubles 0.5 and 1 - 2^-53, the largest double below 1. *)
Definition half : JsNumber := S754_finite false 4503599627370496 (-53).
Definition below_one : JsNumber := S754_finite false 9007199254740991 (-53).

(** The double nearest to 0.1. *)
Definition tenth : JsNumber := S754_finite false 7205759403792794 (-56).

(** A random source that alternates between 0.5 and 1 - 2^-53. *)
Definition alternating : Rng :=
  mkRng (fun n => if Nat.even n then half else below_one) 0.

Definition box : BoundingBox := mkBox 100 100 100 100.

(** The model object of the test suite, and one without a difficulty. *)
Definition test_model : TownService.ModelObject :=
  TownService.mkModelObject "area" (Some 15) (Some []) (Some []) (Some [])
    (Some (mkScore "player" 0)) (Some 300).

Definition model_without_difficulty : TownService.ModelObject :=
  TownService.mkModelObject "area" None None None None None None.

(** The map object of the test suite's valid case. *)
Definition test_mapObject : TownService.ITiledMapObject :=
  TownService.mkMapObject "name" 30 20 (Some 10) (Some 20).

Definition alice : TownService.Player := TownService.mkPlayer "alice" (Some "area").

Definition played_arrow : Arrow :=
  mkArrow (Some RightwardsWhiteArrow) (Some R) half.

(** An area in the middle of a game, with one and with two occupants. *)
Definition area_with (occupants : list string) : TownService.DanceArea :=
  TownService.mkDanceArea "area" box occupants 10 [played_arrow] [played_arrow]
    [Some (mkScore "bob" 7)] (Some (mkScore "alice" 3)) 120.

(** A controller and a broadcast model that differs from it in every
    property but the id. *)
Definition cached_model : Frontend.DanceAreaModel :=
  Frontend.mkModel "area" 15
    (Some (Frontend.mkRef 1 []))
    (Some (Frontend.mkRef 2 []))
    (Some (Frontend.mkRef 3 []))
    (Some (Frontend.mkRef 4 (mkScore "alice" 1)))
    (num 300).

Definition broadcast_model : Frontend.DanceAreaModel :=
  Frontend.mkModel "area" 10
    (Some (Frontend.mkRef 5 [played_arrow]))
    (Some (Frontend.mkRef 6 [played_arrow]))
    (Some (Frontend.mkRef 7 [mkScore "bob" 7]))
    (Some (Frontend.mkRef 8 (mkScore "alice" 2)))
    (num 200).

Definition controller : Frontend.DanceAreaController :=
  Frontend.new_DanceAreaController cached_model.

End Samples.

(** ** Outcomes that draw a given arrow *)

Module Drawing.
Import JsNum CoveyTownSocket.

(** The double [k / 16]. *)
Definition sixteenths (k : Z) : JsNumber := binary_normalize prec emax k (-4) false.

(** The place of a direction in [directions] and of a glyph in [displays]. *)
Definition direction_index (d : ArrowDirection) : Z :=
  match d with L => 0 | R => 1 | U => 2 | D => 3 end.

Definition display_index (s : Display) : Z :=
  match s with
  | LeftwardsWhiteArrow => 0
  | RightwardsWhiteArrow => 1
  | UpwardsWhiteArrow => 2
  | DownwardsWhiteArrow => 3
  end.

(** An outcome whose product by 4 floors to [i], for [i] from 0 to 3: the
    double [i / 4]. *)
Definition outcome_for_index (i : Z) : JsNumber := sixteenths (4 * i).

(** An outcome whose product by 10 floors to [z - 1], for [z] from 1 to 10:
    the least multiple of 1/16 that is not below [(z - 1) / 10]. *)
Definition outcome_for_duration (z : Z) : JsNumber :=
  sixteenths ((16 * (z - 1) + 9) / 10).

(** The source that returns [r1], then [r2], then [r3] for ever. *)
Definition source_of (r1 r2 r3 : JsNumber) : Rng :=
  mkRng (fun n => match n with
                  | O => r1
                  | S O => r2
                  | S (S _) => r3
                  end) 0.

End Drawing.

(** ** A listener of the controller's events *)

Module Listening.
Import JsNum CoveyTownSocket Frontend.

(** The events that carry a number. *)
Definition is_number_change (ev : DanceAreaEvents) : bool :=
  match ev with
  | difficultyChange _ | timerChange _ => true
  | _ => false
  end.

(** A listener that keeps the last difficulty and the last timer it was
    told of. *)
Definition hear (known : Difficulty * JsNumber) (ev : DanceAreaEvents)
  : Difficulty * JsNumber :=
  match ev with
  | difficultyChange d => (d, snd known)
  | timerChange t => (fst known, t)
  | _ => known
  end.

Definition listen (evs : list DanceAreaEvents) (known : Difficulty * JsNumber)
  : Difficulty * JsNumber :=
  fold_left hear evs known.

(** [this'] has emitted what [this] had, then events that carry a number
    only, and a listener that knew the numbers of [this] and heard the new
    events knows the numbers of [this']. *)
Definition told_of_numbers (this this' : DanceAreaController) : Prop :=
  exists new,
    emitted this' = emitted this ++ new /\
    forallb is_number_change new = true /\
    listen new (defficulty this, get_timer this)
    = (defficulty this', get_timer this').

End Listening.

(* ================================================================== *)
(** * Part II: properties                                              *)
(* ================================================================== *)

(** ** Rounding of binary64 products *)

Module JsNumFacts.
  Import JsNum.

Lemma digits2_pos_size p : digits2_pos p = Pos.size p.
Proof. induction p; simpl; congruence. Qed.

Lemma digits2_pos_gt p : Zpos p < 2 ^ Zpos (digits2_pos p).
Proof.
  rewrite digits2_pos_size. generalize (Pos.size_gt p). 
  intros H. apply Pos2Z.pos_lt_pos in H. rewrite Pos2Z.inj_pow in H. exact H.
Qed.

Lemma digits2_pos_le p d : 0 <= d -> Zpos p < 2 ^ d -> Zpos (digits2_pos p) <= d.
Proof.
  intros Hd Hp. rewrite digits2_pos_size.
  generalize (Pos.size_le p). intros H.
  apply Pos2Z.pos_le_pos in H. rewrite Pos2Z.inj_pow in H.
  change (Zpos p~0) with (2 * Zpos p) in H.
  destruct (Z_le_gt_dec (Zpos (Pos.size p)) d) as [|Hgt]; [assumption|exfalso].
  assert (2 ^ (d + 1) <= 2 ^ Zpos (Pos.size p)) by (apply Z.pow_le_mono_r; lia).
  rewrite Z.pow_add_r in * by lia. lia.
Qed.

Lemma Zdigits2_le m d : 0 <= d -> 0 <= m < 2 ^ d -> Zdigits2 m <= d.
Proof.
  intros Hd [H0 Hm]. destruct m as [|p|p]; simpl; try lia.
  now apply digits2_pos_le.
Qed.

(** ** The right shift of the rounding step *)

Lemma shr_inv_init M : 0 <= M -> shr_inv M 0 (Build_shr_record M false false).
Proof. unfold shr_inv; simpl; intros; repeat split; try lia; discriminate. Qed.

Lemma shr_1_halves x :
  0 <= shr_m x ->
  exists q b, shr_m x = 2 * q + Z.b2z b /\ 0 <= q /\
              shr_m (shr_1 x) = q /\ shr_r (shr_1 x) = b.
Proof.
  destruct x as [m r s]. cbn [shr_m]. intros Hm.
  destruct m as [|[p|p|]|p]; try lia.
  - exists 0, false. now cbn.
  - exists (Zpos p), true. cbn [shr_1 shr_m shr_r Z.b2z]. repeat split; lia.
  - exists (Zpos p), false. cbn [shr_1 shr_m shr_r Z.b2z]. repeat split; lia.
  - exists 0, true. now cbn.
Qed.

Lemma shr_1_inv M n x : 0 <= n -> shr_inv M n x -> shr_inv M (n + 1) (shr_1 x).
Proof.
  intros Hn (H0 & Hb & Hr).
  assert (HP : 0 < 2 ^ n) by (apply Z.pow_pos_nonneg; lia).
  assert (HS : 2 ^ (n + 1) = 2 * 2 ^ n) by (rewrite Z.pow_add_r by lia; lia).
  destruct (shr_1_halves x H0) as (q & b & Hx & Hq & Hm' & Hr').
  unfold shr_inv. rewrite HS, Hm', Hr'. clear HS Hm' Hr'.
  rewrite Hx in Hb. clear Hr Hx H0.
  set (P := 2 ^ n) in *.
  destruct b; cbn [Z.b2z] in *; repeat split; try lia; try discriminate.
Qed.

Lemma iter_shr_1_inv M p : forall n x,
  0 <= n -> shr_inv M n x -> shr_inv M (n + Zpos p) (iter_pos shr_1 p x).
Proof.
  induction p as [p IH|p IH|]; intros n x Hn Hx; simpl.
  - replace (n + Zpos p~1) with (((n + 1) + Zpos p) + Zpos p) by lia.
    apply IH; [lia|]. apply IH; [lia|]. now apply shr_1_inv.
  - replace (n + Zpos p~0) with ((n + Zpos p) + Zpos p) by lia.
    apply IH; [lia|]. now apply IH.
  - now apply shr_1_inv.
Qed.

Lemma shr_inv_spec M E n :
  0 <= M ->
  exists k, k = Z.max 0 n /\
    snd (shr (Build_shr_record M false false) E n) = E + k /\
    shr_inv M k (fst (shr (Build_shr_record M false false) E n)).
Proof.
  intros HM. exists (Z.max 0 n). split; [reflexivity|].
  destruct n as [|p|p]; simpl.
  - split; [lia|]. now apply shr_inv_init.
  - split; [lia|]. rewrite Z.max_r by lia.
    apply (iter_shr_1_inv M p 0); [lia|]. now apply shr_inv_init.
  - split; [lia|]. now apply shr_inv_init.
Qed.

Lemma round_nearest_even_inv M n x :
  shr_inv M n x ->
  let m1 := round_nearest_even (shr_m x) (loc_of_shr_record x) in
  0 <= m1 /\ 2 * m1 * 2 ^ n <= 2 * M + 2 ^ n.
Proof.
  intros (H0 & Hb & Hr).
  assert (HP : 0 <= 2 ^ n) by (apply Z.pow_nonneg; lia).
  set (P := 2 ^ n) in *.
  destruct x as [m r s]. cbn [shr_m shr_r] in *.
  destruct r, s; cbn [loc_of_shr_record round_nearest_even];
    try (specialize (Hr eq_refl)); try destruct (Z.even m); lia.
Qed.

Lemma fexp_shift x c : 0 <= c -> fexp prec emax (x + c) <= fexp prec emax x + c.
Proof. unfold fexp, emin, prec, emax. lia. Qed.

Lemma fexp_mono x y : x <= y -> fexp prec emax x <= fexp prec emax y.
Proof. unfold fexp, emin, prec, emax. lia. Qed.

Lemma lt_cancel_pow2 a b k : 0 <= k -> a * 2 ^ k < b * 2 ^ k -> a < b.
Proof.
  intros Hk H. assert (0 < 2 ^ k) by (apply Z.pow_pos_nonneg; lia).
  now apply Z.mul_lt_mono_pos_r in H.
Qed.

Lemma shr_fexp_exact M E :
  0 <= M ->
  exists k, k = Z.max 0 (fexp prec emax (Zdigits2 M + E) - E) /\
    snd (shr_fexp prec emax M E loc_Exact) = E + k /\
    shr_inv M k (fst (shr_fexp prec emax M E loc_Exact)).
Proof. intros HM. unfold shr_fexp. cbn [shr_record_of_loc]. now apply shr_inv_spec. Qed.

Section Product.
Variables (m mk : positive) (e ek D K : Z).
Hypothesis Hcanon : canonical_mantissa prec emax m e = true.
Hypothesis Hunit : Zpos (digits2_pos m) + e <= 0.
Hypothesis HD : 2 ^ (D - 1) < Zpos mk <= 2 ^ D.
Hypothesis HD1 : 1 <= D.
Hypothesis HDk : 0 <= D + ek <= 52.
Hypothesis Hek : ek <= 0.
Hypothesis HK : Zpos mk = K * 2 ^ (- ek).

Lemma unit_exponent : e <= -53.
Proof.
  unfold canonical_mantissa in Hcanon. apply Z.eqb_eq in Hcanon.
  unfold fexp, emin, prec, emax in Hcanon. lia.
Qed.

Lemma unit_mantissa : Zpos m + 1 <= 2 ^ (- e).
Proof.
  generalize (digits2_pos_gt m). intros H.
  assert (2 ^ Zpos (digits2_pos m) <= 2 ^ (- e)) by (apply Z.pow_le_mono_r; lia).
  lia.
Qed.

Lemma product_digits : Zdigits2 (Zpos (m * mk)) <= Zpos (digits2_pos m) + D.
Proof.
  apply Zdigits2_le; [lia|]. split; [lia|].
  rewrite Z.pow_add_r by lia. rewrite Pos2Z.inj_mul.
  generalize (digits2_pos_gt m). intros H.
  apply Z.le_lt_trans with (Zpos m * 2 ^ D).
  - apply Z.mul_le_mono_nonneg_l; lia.
  - apply Z.mul_lt_mono_pos_r; [apply Z.pow_pos_nonneg|]; lia.
Qed.

Lemma multiplier_bound : 0 < K <= 2 ^ (D + ek).
Proof.
  assert (HP : 0 < 2 ^ (- ek)) by (apply Z.pow_pos_nonneg; lia).
  assert (HS : 2 ^ D = 2 ^ (D + ek) * 2 ^ (- ek)).
  { rewrite <- Z.pow_add_r by lia. f_equal. lia. }
  split.
  - assert (0 < K * 2 ^ (- ek)) by lia. nia.
  - assert (K * 2 ^ (- ek) <= 2 ^ (D + ek) * 2 ^ (- ek)) by lia. nia.
Qed.

Theorem js_mul_below :
  let p := js_mul (S754_finite false m e) (S754_finite false mk ek) in
  p = S754_zero false \/
  exists m2 e2, p = S754_finite false m2 e2 /\ e2 < 0 /\ Zpos m2 < K * 2 ^ (- e2).
Proof.
  cbv zeta. unfold js_mul, SFmul. cbn [xorb]. unfold binary_round_aux.
  set (M := Zpos (m * mk)). set (E := e + ek).
  generalize unit_exponent unit_mantissa product_digits multiplier_bound.
  intros He Hm HdM HKb. fold M in HdM.
  destruct (shr_fexp_exact M E) as (k1 & Hk1 & He1 & Hinv1); [subst M; lia|].
  destruct (shr_fexp prec emax M E loc_Exact) as [mrs1 e1]. cbn [fst snd] in *.
  generalize (round_nearest_even_inv _ _ _ Hinv1). cbv zeta.
  set (m1 := round_nearest_even (shr_m mrs1) (loc_of_shr_record mrs1)).
  intros [Hm1 Hround].
  (* the first shift is by at most D places *)
  assert (Hk1D : 0 <= k1 <= D).
  { generalize (fexp_mono _ _ (proj1 (Z.add_le_mono_r _ _ E) HdM)).
    generalize (fexp_shift (Zpos (digits2_pos m) + e) (D + ek) (proj1 HDk)).
    unfold canonical_mantissa in Hcanon. apply Z.eqb_eq in Hcanon.
    replace (Zpos (digits2_pos m) + D + E) with (Zpos (digits2_pos m) + e + (D + ek))
      by (subst E; lia).
    subst E. lia. }
  assert (He1neg : e1 < 0) by (subst E; lia).
  (* the rounded mantissa stays below K at exponent e1 *)
  assert (Hm1K : m1 < K * 2 ^ (- e1)).
  { apply (lt_cancel_pow2 _ _ k1); [lia|].
    rewrite <- Z.mul_assoc, <- Z.pow_add_r by lia.
    replace (- e1 + k1) with (- ek + - e) by (subst E; lia).
    rewrite Z.pow_add_r, Z.mul_assoc, <- HK by lia.
    assert (H2k : 2 ^ k1 <= 2 ^ D) by (apply Z.pow_le_mono_r; lia).
    assert (H2D : 2 ^ D = 2 * 2 ^ (D - 1)).
    { replace D with ((D - 1) + 1) at 1 by lia. rewrite Z.pow_add_r by lia. lia. }
    subst M. rewrite Pos2Z.inj_mul in Hround.
    assert (Zpos m * Zpos mk <= (2 ^ (- e) - 1) * Zpos mk)
      by (apply Z.mul_le_mono_nonneg_r; lia).
    nia. }
  destruct (shr_fexp_exact m1 e1 Hm1) as (k2 & Hk2 & He2 & Hinv2).
  destruct (shr_fexp prec emax m1 e1 loc_Exact) as [mrs2 e2]. cbn [fst snd] in *.
  destruct Hinv2 as (Hm2 & [Hlow _] & _).
  assert (Hd1 : Zdigits2 m1 <= D + ek - e1).
  { apply Zdigits2_le; [lia|]. split; [lia|].
    replace (D + ek - e1) with ((D + ek) + - e1) by lia.
    rewrite Z.pow_add_r by lia.
    apply Z.lt_le_trans with (1 := Hm1K).
    apply Z.mul_le_mono_nonneg_r; [apply Z.pow_nonneg|]; lia. }
  assert (He2neg : e2 < 0).
  { generalize (fexp_mono (Zdigits2 m1 + e1) (D + ek)).
    unfold fexp, emin, prec, emax in *. lia. }
  assert (Hk2' : 0 <= k2) by lia.
  assert (Hm2K : shr_m mrs2 < K * 2 ^ (- e2)).
  { apply (lt_cancel_pow2 _ _ k2); [lia|].
    rewrite <- Z.mul_assoc, <- Z.pow_add_r by lia.
    replace (- e2 + k2) with (- e1) by lia. lia. }
  destruct (shr_m mrs2) as [|m2|m2]; [now left| |lia].
  right. exists m2, e2.
  replace (e2 <=? emax - prec) with true
    by (symmetry; apply Z.leb_le; unfold emax, prec; lia).
  auto.
Qed.
End Product.

(** The model rounds as JavaScript does: [0.1 * 3] is
    [0.30000000000000004], the double 0x3FD3333333333334. *)
Example tenth_times_three :
  js_mul Samples.tenth (num 3) = S754_finite false 5404319552844596 (-54).
Proof. vm_compute. reflexivity. Qed.

Example twenty_times_fifteen : js_mul (num 20) (num 15) = num 300.
Proof. vm_compute. reflexivity. Qed.

(** [Math.floor] rounds down, also below zero; an index that is no integer
    of the array reads [undefined]. *)
Example floor_of_minus_half :
  Math_floor (S754_finite true 4503599627370496 (-53)) = num (-1).
Proof. vm_compute. reflexivity. Qed.

Example floor_of_half : Math_floor Samples.half = num 0.
Proof. vm_compute. reflexivity. Qed.

Example get_inside_and_outside :
  js_get [10; 20; 30; 40] (num 3) = Some 40 /\
  js_get [10; 20; 30; 40] (num 4) = None /\
  js_get [10; 20; 30; 40] (num (-1)) = None /\
  js_get [10; 20; 30; 40] Samples.half = None /\
  js_get [10; 20; 30; 40] S754_nan = None.
Proof. vm_compute. repeat split. Qed.

Lemma num_1 : num 1 = S754_finite false 4503599627370496 (-52).
Proof. vm_compute. reflexivity. Qed.

Lemma num_4 : num 4 = S754_finite false 4503599627370496 (-50).
Proof. vm_compute. reflexivity. Qed.

Lemma num_10 : num 10 = S754_finite false 5629499534213120 (-49).
Proof. vm_compute. reflexivity. Qed.

(** A canonical double below 1 has all its digits behind the binary point. *)
Lemma random_outcome_finite m e :
  random_outcome (S754_finite false m e) = true ->
  canonical_mantissa prec emax m e = true /\ Zpos (digits2_pos m) + e <= 0.
Proof.
  unfold random_outcome. rewrite num_1. unfold bounded.
  intros H. apply andb_prop in H. destruct H as [Hb Hlt].
  apply andb_prop in Hb. destruct Hb as [Hc _]. split; [exact Hc|].
  unfold canonical_mantissa in Hc. apply Z.eqb_eq in Hc.
  unfold SFltb, SFcompare in Hlt.
  destruct (Z.compare_spec e (-52)) as [Heq|Hl|Hg]; try discriminate.
  - exfalso.
    rewrite Pos.compare_cont_spec in Hlt.
    destruct (Pos.compare m 4503599627370496) eqn:Hcmp; try discriminate.
    assert (Hd : Zpos (digits2_pos m) <= 52).
    { apply digits2_pos_le; [lia|]. change (2 ^ 52) with 4503599627370496.
      apply Pos2Z.pos_lt_pos. exact Hcmp. }
    unfold fexp, emin, prec, emax in Hc. lia.
  - unfold fexp, emin, prec, emax in Hc. lia.
Qed.

Section Floor.
Variables (mk : positive) (ek D K : Z).
Hypothesis HD : 2 ^ (D - 1) < Zpos mk <= 2 ^ D.
Hypothesis HD1 : 1 <= D.
Hypothesis HDk : 0 <= D + ek <= 52.
Hypothesis Hek : ek <= 0.
Hypothesis HK : Zpos mk = K * 2 ^ (- ek).

(** [Math.floor(Math.random() * K)] is one of the integers 0, ..., K - 1. *)
Lemma floor_of_product r :
  random_outcome r = true ->
  exists z, 0 <= z < K /\
    Math_floor (js_mul r (S754_finite false mk ek)) = num z.
Proof.
  intros Hr.
  assert (HKpos : 0 < K) by (eapply multiplier_bound; eassumption).
  destruct r as [[|]|[|]| |[|] m e]; try discriminate.
  - exists 0. split; [lia|vm_compute; reflexivity].
  - destruct (random_outcome_finite m e Hr) as [Hc Hu].
    destruct (js_mul_below m mk e ek D K Hc Hu HD HD1 HDk Hek HK)
      as [Hz|(m2 & e2 & Hp & He2 & Hm2)]; rewrite ?Hz, ?Hp.
    + exists 0. split; [lia|vm_compute; reflexivity].
    + assert (HP : 0 < 2 ^ (- e2)) by (apply Z.pow_pos_nonneg; lia).
      exists (Zpos m2 / 2 ^ (- e2)). split.
      * split; [apply Z.div_pos; lia|].
        apply Z.div_lt_upper_bound; [lia|]. lia.
      * unfold Math_floor. 
        replace (0 <=? e2) with false by (symmetry; apply Z.leb_gt; lia).
        cbn [cond_Zopp]. now rewrite Z.shiftl_div_pow2 by lia.
Qed.
End Floor.

Lemma floor_random_times_4 r :
  random_outcome r = true ->
  exists z, 0 <= z < 4 /\ Math_floor (js_mul r (num 4)) = num z.
Proof.
  rewrite num_4. apply (floor_of_product _ _ 52 4); try lia; vm_compute; reflexivity.
Qed.

Lemma floor_random_times_10 r :
  random_outcome r = true ->
  exists z, 0 <= z < 10 /\ Math_floor (js_mul r (num 10)) = num z.
Proof.
  rewrite num_10. apply (floor_of_product _ _ 53 10); try lia; vm_compute; reflexivity.
Qed.

(** Adding 1 to a small integer is exact. *)
Lemma succ_small_integer z :
  0 <= z < 10 -> js_add (num z) (num 1) = num (z + 1).
Proof.
  intros Hz.
  assert (H : z = 0 \/ z = 1 \/ z = 2 \/ z = 3 \/ z = 4 \/
              z = 5 \/ z = 6 \/ z = 7 \/ z = 8 \/ z = 9) by lia.
  repeat (destruct H as [-> | H]; [vm_compute; reflexivity|]). subst z. vm_compute. reflexivity.
Qed.

(** Reading a four-element array at a small integer index. *)
Lemma js_get_four {A : Type} (a b c d : A) z :
  0 <= z < 4 ->
  In (js_get [a; b; c; d] (num z)) (map Some [a; b; c; d]).
Proof.
  intros Hz.
  assert (H : z = 0 \/ z = 1 \/ z = 2 \/ z = 3) by lia.
  destruct H as [-> | [-> | [-> | ->]]]; vm_compute; auto.
Qed.

End JsNumFacts.

(** ** The server side *)

Module TownServiceFacts.
Import JsNum CoveyTownSocket TownService JsNumFacts.

(** *** The random source *)

Lemma random_source_outcomes g g' :
  outcomes g' = outcomes g -> random_source g -> random_source g'.
Proof. unfold random_source. intros -> H. exact H. Qed.

Lemma random_arrow_unfold g :
  random_arrow g =
  (let r1 := outcomes g (position g) in
   let r2 := outcomes g (S (position g)) in
   let r3 := outcomes g (S (S (position g))) in
   mkArrow (js_get displays (Math_floor (js_mul r2 (num 4))))
           (js_get directions (Math_floor (js_mul r1 (num 4))))
           (js_add (Math_floor (js_mul r3 (num 10))) (num 1)),
   mkRng (outcomes g) (S (S (S (position g))))).
Proof. destruct g as [o p]. reflexivity. Qed.

Lemma random_arrow_outcomes g : outcomes (snd (random_arrow g)) = outcomes g.
Proof. now rewrite random_arrow_unfold. Qed.

(** Every arrow the loop makes from outcomes of [Math.random] is well
    formed. *)
Lemma random_arrow_generated g :
  random_source g -> generated_arrow (fst (random_arrow g)).
Proof.
  intros Hg. rewrite random_arrow_unfold. cbv zeta. cbn [fst].
  unfold generated_arrow. cbn [display direction duration].
  destruct (floor_random_times_4 _ (Hg (position g))) as (z1 & Hz1 & ->).
  destruct (floor_random_times_4 _ (Hg (S (position g)))) as (z2 & Hz2 & ->).
  destruct (floor_random_times_10 _ (Hg (S (S (position g))))) as (z3 & Hz3 & ->).
  split; [|split].
  - exists (z3 + 1). split; [lia|]. now apply succ_small_integer.
  - now apply js_get_four.
  - now apply js_get_four.
Qed.

(** *** The constructor's loop *)

Lemma push_arrows_step turns correct g :
  push_arrows (S turns) correct g =
  push_arrows turns (correct ++ [fst (random_arrow g)]) (snd (random_arrow g)).
Proof.
  cbn [push_arrows]. unfold bind. now destruct (random_arrow g).
Qed.

Lemma push_arrows_outcomes turns : forall correct g,
  outcomes (snd (push_arrows turns correct g)) = outcomes g.
Proof.
  induction turns as [|turns IH]; intros correct g; [reflexivity|].
  rewrite push_arrows_step, IH. apply random_arrow_outcomes.
Qed.

Lemma push_arrows_length turns : forall correct g,
  List.length (fst (push_arrows turns correct g))
  = (List.length correct + turns)%nat.
Proof.
  induction turns as [|turns IH]; intros correct g.
  - cbn. lia.
  - rewrite push_arrows_step, IH, length_app. cbn [List.length]. lia.
Qed.

Lemma push_arrows_generated turns : forall correct g,
  random_source g ->
  Forall generated_arrow correct ->
  Forall generated_arrow (fst (push_arrows turns correct g)).
Proof.
  induction turns as [|turns IH]; intros correct g Hg Hc; [exact Hc|].
  rewrite push_arrows_step. apply IH.
  - apply (random_source_outcomes g); [apply random_arrow_outcomes|exact Hg].
  - apply Forall_app. split; [exact Hc|].
    constructor; [now apply random_arrow_generated|constructor].
Qed.

(** *** The constructor and the factory *)

Lemma new_DanceArea_unfold model coordinates g :
  fst (new_DanceArea model coordinates g) =
  {| area_id := obj_id model;
     boundingBox := coordinates;
     _occupants := [];
     _difficulty := or_number (obj_difficulty model) 15;
     _correct := fst (push_arrows (Z.to_nat ARROWLENGTH) [] g);
     _userClicks := [];
     _leaderboard := or_array (obj_leaderboard model) (new_Array 10);
     _currentScore := obj_currentScore model;
     _timer := ARROWLENGTH * or_number (obj_difficulty model) 15 |}.
Proof.
  unfold new_DanceArea, bind, ret.
  now destruct (push_arrows (Z.to_nat ARROWLENGTH) [] g).
Qed.

Lemma bind_ret_Ok {A : Type} (c : Rand A) g :
  fst (bind c (fun a => ret (Ok a)) g) = Ok (fst (c g)).
Proof. unfold bind, ret. now destruct (c g). Qed.

Lemma Ok_inj {A : Type} (a b : A) : Ok a = Ok b -> a = b.
Proof. intros H. inversion H. reflexivity. Qed.

Lemma fromMapObject_Ok mapObject g a :
  fst (fromMapObject mapObject g) = Ok a ->
  exists w h,
    mo_width mapObject = Some w /\ mo_height mapObject = Some h /\
    w <> 0 /\ h <> 0 /\
    a = fst (new_DanceArea
               {| obj_id := mo_name mapObject;
                  obj_difficulty := Some 15;
                  obj_correct := Some [];
                  obj_userClicks := Some [];
                  obj_leaderboard := Some [];
                  obj_currentScore := Some (mkScore "" 0);
                  obj_timer := Some (ARROWLENGTH * 15) |}
               (mkBox (mo_x mapObject) (mo_y mapObject) w h) g).
Proof.
  unfold fromMapObject.
  destruct (mo_width mapObject) as [w|]; [|discriminate].
  destruct (mo_height mapObject) as [h|]; [|discriminate].
  cbn [falsy].
  destruct (Z.eqb_spec w 0) as [|Hw]; [discriminate|].
  destruct (Z.eqb_spec h 0) as [|Hh]; [discriminate|].
  cbn [orb]. rewrite bind_ret_Ok.
  intros Ha. apply Ok_inj in Ha. exists w, h. repeat split; auto.
Qed.

(** C1. Every construction of a server dance area, by the constructor or by
    [fromMapObject], leaves a [correct] sequence of exactly 20 arrows, each
    with an integer duration from 1 to 10, a direction out of the four
    directions and a glyph out of the four glyphs, whatever outcomes in
    [[0, 1)] the random source produces.  The factory constructs an area
    unless the width or the height of the map object is missing or falsy. *)
Theorem correct_has_twenty_generated_arrows
    (model : ModelObject) (coordinates : BoundingBox)
    (mapObject : ITiledMapObject) (g : Rng) :
  random_source g ->
  (let a := fst (new_DanceArea model coordinates g) in
   List.length (_correct a) = 20%nat /\ Forall generated_arrow (_correct a)) /\
  match fst (fromMapObject mapObject g) with
  | Ok a =>
      List.length (_correct a) = 20%nat /\ Forall generated_arrow (_correct a)
  | Throw _ =>
      falsy (mo_width mapObject) || falsy (mo_height mapObject) = true
  end.
Proof.
  intros Hg.
  assert (H : forall model coordinates,
    let a := fst (new_DanceArea model coordinates g) in
    List.length (_correct a) = 20%nat /\ Forall generated_arrow (_correct a)).
  { intros model' coordinates'. cbv zeta. rewrite new_DanceArea_unfold.
    cbn [_correct]. split.
    - now rewrite push_arrows_length.
    - apply push_arrows_generated; [exact Hg|constructor]. }
  split; [apply H|].
  unfold fromMapObject.
  destruct (mo_width mapObject) as [w|]; [|reflexivity].
  destruct (mo_height mapObject) as [h|]; [|apply orb_true_r].
  destruct (falsy (Some w) || falsy (Some h)) eqn:E; [reflexivity|].
  rewrite bind_ret_Ok. apply H.
Qed.

Lemma alternating_is_random_source : random_source Samples.alternating.
Proof.
  intros n. cbn [outcomes Samples.alternating].
  destruct (Nat.even n); vm_compute; reflexivity.
Qed.

Lemma correct_has_twenty_generated_arrows_witness :
  (let a := fst (new_DanceArea Samples.test_model Samples.box Samples.alternating) in
   List.length (_correct a) = 20%nat /\ Forall generated_arrow (_correct a)) /\
  match fst (fromMapObject Samples.test_mapObject Samples.alternating) with
  | Ok a =>
      List.length (_correct a) = 20%nat /\ Forall generated_arrow (_correct a)
  | Throw _ =>
      falsy (mo_width Samples.test_mapObject)
      || falsy (mo_height Samples.test_mapObject) = true
  end.
Proof.
  apply (correct_has_twenty_generated_arrows
           Samples.test_model Samples.box Samples.test_mapObject
           Samples.alternating).
  exact alternating_is_random_source.
Defined.

(** The largest outcome gives the last index and the longest duration. *)
Example floor_below_one_times_10 :
  Math_floor (js_mul Samples.below_one (num 10)) = num 9.
Proof. vm_compute. reflexivity. Qed.

Example first_arrow_of_alternating :
  fst (random_arrow Samples.alternating)
  = mkArrow (Some DownwardsWhiteArrow) (Some U) (num 6).
Proof. vm_compute. reflexivity. Qed.

(** C5. A model object whose [difficulty] is absent or falsy makes an area
    of difficulty 15 and timer 300; any other difficulty is kept; and the
    timer of every constructed area is 20 times its difficulty. *)
Theorem constructor_difficulty_and_timer
    (model : ModelObject) (coordinates : BoundingBox) (g : Rng) :
  let a := fst (new_DanceArea model coordinates g) in
  (falsy (obj_difficulty model) = true ->
   _difficulty a = 15 /\ _timer a = 300) /\
  (falsy (obj_difficulty model) = false ->
   Some (_difficulty a) = obj_difficulty model) /\
  _timer a = 20 * _difficulty a.
Proof.
  cbv zeta. rewrite new_DanceArea_unfold. cbn [_difficulty _timer].
  unfold or_number, falsy, ARROWLENGTH.
  destruct (obj_difficulty model) as [n|].
  - destruct (Z.eqb_spec n 0); repeat split; intros; try discriminate; auto.
  - repeat split; intros; try discriminate; auto.
Qed.

Example constructor_without_difficulty :
  let a := fst (new_DanceArea Samples.model_without_difficulty Samples.box
                              Samples.alternating) in
  _difficulty a = 15 /\ _timer a = 300 /\
  _leaderboard a = repeat None 10 /\ _currentScore a = None.
Proof. cbv zeta. rewrite new_DanceArea_unfold. repeat split. Qed.

(** *** [updateModel] and [toModel] *)

(** C3. After [updateModel m] the model of the area is [m] with the id of
    the area in place of the id of [m]; [updateModel] does not change the
    id. *)
Theorem toModel_after_updateModel (this : DanceArea) (m : DanceAreaModel) :
  toModel (updateModel m this)
  = {| id := area_id this;
       difficulty := difficulty m;
       correct := correct m;
       userClicks := userClicks m;
       leaderboard := leaderboard m;
       currentScore := currentScore m;
       timer := timer m |}
  /\ area_id (updateModel m this) = area_id this.
Proof. split; reflexivity. Qed.

(** *** [remove] *)

Lemma remove_unfold player this :
  remove player this =
  let occupants :=
    filter (fun eachPlayer => negb (String.eqb eachPlayer (player_id player)))
           (_occupants this) in
  let this1 :=
    mkDanceArea (area_id this) (boundingBox this) occupants (_difficulty this)
      (_correct this) (_userClicks this) (_leaderboard this)
      (_currentScore this) (_timer this) in
  let this2 := if (List.length occupants =? 0)%nat then reset this1 else this1 in
  (this2, mkPlayer (player_id player) None,
   [playerMoved (mkPlayer (player_id player) None);
    interactableUpdate (toModel this);
    interactableUpdate (toModel this2)]).
Proof. reflexivity. Qed.

(** What [remove] sends: what the base class sends, then one model. *)
Lemma remove_sends player this :
  snd (remove player this)
  = snd (InteractableArea_remove player this)
    ++ [interactableUpdate (toModel (fst (fst (remove player this))))].
Proof. reflexivity. Qed.

Lemma last_occupant_leaves player occupants :
  (forall q, In q occupants -> q = player_id player) ->
  filter (fun eachPlayer => negb (String.eqb eachPlayer (player_id player)))
         occupants = [].
Proof.
  intros Hlast. induction occupants as [|q occupants IH]; [reflexivity|].
  cbn [filter]. rewrite (Hlast q (or_introl eq_refl)), String.eqb_refl.
  cbn [negb]. apply IH. intros q' Hq'. apply Hlast. now right.
Qed.

Lemma other_occupant_stays player occupants q :
  In q occupants -> q <> player_id player ->
  (List.length
     (filter (fun eachPlayer => negb (String.eqb eachPlayer (player_id player)))
             occupants) =? 0)%nat = false.
Proof.
  intros Hin Hneq.
  assert (Hq : In q (filter (fun eachPlayer =>
                 negb (String.eqb eachPlayer (player_id player))) occupants)).
  { apply filter_In. split; [exact Hin|].
    apply negb_true_iff, String.eqb_neq, Hneq. }
  destruct (filter _ occupants); [contradiction|reflexivity].
Qed.

(** C2, as the code has it.  When the player that is removed was the last
    occupant, the difficulty becomes 15, [correct] and [userClicks] become
    empty, the current score becomes the empty score, the timer becomes
    300 and the leaderboard stays as it was.  After what the base class
    sends, [remove] sends one [interactableUpdate], the last event, which
    carries these values under the id of the area; with the model the base
    class sends on the change of occupants, which is the one before the
    reset, that makes two. *)
Theorem remove_last_occupant_resets (player : Player) (this : DanceArea) :
  (forall q, In q (_occupants this) -> q = player_id player) ->
  let this' := fst (fst (remove player this)) in
  let sent := snd (remove player this) in
  let model_after_reset :=
    {| id := area_id this;
       difficulty := 15;
       correct := [];
       userClicks := [];
       leaderboard := _leaderboard this;
       currentScore := Some (mkScore "" 0);
       timer := 300 |} in
  _difficulty this' = 15 /\
  _correct this' = [] /\
  _userClicks this' = [] /\
  _currentScore this' = Some (mkScore "" 0) /\
  _timer this' = 300 /\
  _leaderboard this' = _leaderboard this /\
  sent = snd (InteractableArea_remove player this)
         ++ [interactableUpdate model_after_reset] /\
  filter is_interactableUpdate sent
  = [interactableUpdate (toModel this); interactableUpdate model_after_reset].
Proof.
  intros Hlast. cbv zeta. rewrite remove_sends, remove_unfold. cbv zeta.
  unfold InteractableArea_remove.
  rewrite (last_occupant_leaves _ _ Hlast). cbn. repeat split.
Qed.

Lemma remove_last_occupant_resets_witness :
  let this := Samples.area_with ["alice"%string] in
  let this' := fst (fst (remove Samples.alice this)) in
  let sent := snd (remove Samples.alice this) in
  let model_after_reset :=
    {| id := area_id this;
       difficulty := 15;
       correct := [];
       userClicks := [];
       leaderboard := _leaderboard this;
       currentScore := Some (mkScore "" 0);
       timer := 300 |} in
  _difficulty this' = 15 /\
  _correct this' = [] /\
  _userClicks this' = [] /\
  _currentScore this' = Some (mkScore "" 0) /\
  _timer this' = 300 /\
  _leaderboard this' = _leaderboard this /\
  sent = snd (InteractableArea_remove Samples.alice this)
         ++ [interactableUpdate model_after_reset] /\
  filter is_interactableUpdate sent
  = [interactableUpdate (toModel this); interactableUpdate model_after_reset].
Proof.
  apply (remove_last_occupant_resets Samples.alice
           (Samples.area_with ["alice"%string])).
  intros q [<-|[]]. reflexivity.
Defined.

(** C2, as it was stated, fails: when the last occupant of an area in the
    middle of a game leaves, two [interactableUpdate]s are sent, not one,
    and the first of them carries the state before the reset. *)
Lemma remove_last_occupant_sends_two_updates :
  let this := Samples.area_with ["alice"%string] in
  let this' := fst (fst (remove Samples.alice this)) in
  let sent := snd (remove Samples.alice this) in
  (forall q, In q (_occupants this) -> q = player_id Samples.alice) /\
  List.length (filter is_interactableUpdate sent) = 2%nat /\
  filter is_interactableUpdate sent <> [interactableUpdate (toModel this')] /\
  hd_error (filter is_interactableUpdate sent)
  = Some (interactableUpdate (toModel this)) /\
  toModel this <> toModel this'.
Proof.
  cbv zeta. split; [intros q [<-|[]]; reflexivity|].
  vm_compute. repeat split; discriminate.
Qed.

(** C8, as the code has it.  When another occupant remains after the
    removal, no field of the game changes.  After what the base class
    sends, [remove] sends one [interactableUpdate], the last event, which
    carries the unchanged model; with the model the base class sends on the
    change of occupants, which is the same one, that makes two. *)
Theorem remove_with_other_occupant_keeps_state
    (player : Player) (this : DanceArea) :
  (exists q, In q (_occupants this) /\ q <> player_id player) ->
  let this' := fst (fst (remove player this)) in
  let sent := snd (remove player this) in
  _difficulty this' = _difficulty this /\
  _correct this' = _correct this /\
  _userClicks this' = _userClicks this /\
  _leaderboard this' = _leaderboard this /\
  _currentScore this' = _currentScore this /\
  _timer this' = _timer this /\
  sent = snd (InteractableArea_remove player this)
         ++ [interactableUpdate (toModel this)] /\
  filter is_interactableUpdate sent
  = [interactableUpdate (toModel this); interactableUpdate (toModel this)].
Proof.
  intros (q & Hin & Hneq). cbv zeta. rewrite remove_sends, remove_unfold.
  cbv zeta. unfold InteractableArea_remove.
  rewrite (other_occupant_stays _ _ _ Hin Hneq). cbn. repeat split.
Qed.

Lemma remove_with_other_occupant_keeps_state_witness :
  let this := Samples.area_with ["alice"; "bob"]%string in
  let this' := fst (fst (remove Samples.alice this)) in
  let sent := snd (remove Samples.alice this) in
  _difficulty this' = _difficulty this /\
  _correct this' = _correct this /\
  _userClicks this' = _userClicks this /\
  _leaderboard this' = _leaderboard this /\
  _currentScore this' = _currentScore this /\
  _timer this' = _timer this /\
  sent = snd (InteractableArea_remove Samples.alice this)
         ++ [interactableUpdate (toModel this)] /\
  filter is_interactableUpdate sent
  = [interactableUpdate (toModel this); interactableUpdate (toModel this)].
Proof.
  apply (remove_with_other_occupant_keeps_state Samples.alice
           (Samples.area_with ["alice"; "bob"]%string)).
  exists "bob"%string. split; [right; left; reflexivity|discriminate].
Defined.

(** C8, as it was stated, fails: when one of two occupants leaves, two
    [interactableUpdate]s with the unchanged model are sent, not one. *)
Lemma remove_with_other_occupant_sends_two_updates :
  let this := Samples.area_with ["alice"; "bob"]%string in
  let sent := snd (remove Samples.alice this) in
  (exists q, In q (_occupants this) /\ q <> player_id Samples.alice) /\
  List.length (filter is_interactableUpdate sent) = 2%nat /\
  filter is_interactableUpdate sent <> [interactableUpdate (toModel this)].
Proof.
  cbv zeta. split.
  - exists "bob"%string. split; [right; left; reflexivity|discriminate].
  - vm_compute. split; [reflexivity|discriminate].
Qed.

(** Two distinct occupants are enough for another one to remain. *)
Corollary two_occupants_leave_one (player : Player) (this : DanceArea) :
  NoDup (_occupants this) -> (2 <= List.length (_occupants this))%nat ->
  exists q, In q (_occupants this) /\ q <> player_id player.
Proof.
  intros Hnd Hlen.
  destruct (_occupants this) as [|a [|b rest]]; cbn in Hlen; try lia.
  destruct (String.eqb_spec a (player_id player)) as [Ha|Ha].
  - exists b. split; [right; left; reflexivity|].
    intros Hb. inversion Hnd as [|? ? Hnotin _]. apply Hnotin.
    left. congruence.
  - exists a. split; [left; reflexivity|exact Ha].
Qed.

(** *** [fromMapObject] *)

(** A map object without a width or without a height is refused. *)
Lemma fromMapObject_throws mapObject g :
  falsy (mo_width mapObject) = true \/ falsy (mo_height mapObject) = true ->
  fromMapObject mapObject g = (Throw missing_width_height, g).
Proof.
  unfold fromMapObject.
  destruct (mo_width mapObject) as [w|], (mo_height mapObject) as [h|];
    try reflexivity.
  intros [H|H]; rewrite H; [reflexivity|]. now rewrite orb_true_r.
Qed.

(** What the factory makes of a map object with a width and a height. *)
Lemma fromMapObject_valid name x y w h g :
  w <> 0 -> h <> 0 ->
  exists a,
    fst (fromMapObject (mkMapObject name x y (Some w) (Some h)) g) = Ok a /\
    area_id a = name /\ boundingBox a = mkBox x y w h /\
    _occupants a = [] /\ _difficulty a = 15 /\
    List.length (_correct a) = 20%nat /\
    _userClicks a = [] /\ _leaderboard a = [] /\
    _currentScore a = Some (mkScore "" 0) /\ _timer a = 300.
Proof.
  intros Hw Hh. eexists. split.
  - unfold fromMapObject. cbn [mo_width mo_height mo_name mo_x mo_y falsy].
    apply Z.eqb_neq in Hw, Hh. rewrite Hw, Hh. cbn [orb].
    rewrite bind_ret_Ok. reflexivity.
  - rewrite new_DanceArea_unfold.
    cbn [area_id boundingBox _occupants _difficulty _correct _userClicks
         _leaderboard _currentScore _timer].
    rewrite push_arrows_length. repeat split.
Qed.

(** C4, at the map object of the test suite: the area is made, and its
    [correct] sequence holds the 20 arrows of the constructor, where the
    test suite expects the empty sequence. *)
Theorem fromMapObject_correct_is_not_empty (g : Rng) :
  exists a,
    fst (fromMapObject Samples.test_mapObject g) = Ok a /\
    List.length (_correct a) = 20%nat /\
    _correct a <> [].
Proof.
  destruct (fromMapObject_valid "name" 30 20 10 20 g) as (a & Ha & H);
    [lia|lia|].
  exists a. split; [exact Ha|].
  destruct H as (_ & _ & _ & _ & Hlen & _). split; [exact Hlen|].
  intros Hnil. rewrite Hnil in Hlen. discriminate.
Qed.

End TownServiceFacts.

(** ** The client side *)

Module FrontendFacts.
Import JsNum CoveyTownSocket Frontend.

(** An array or object is never different from itself. *)
Lemma loose_neq_same {A : Type} (a : JsObject A) : loose_neq a a = false.
Proof. destruct a as [r|]; cbn; [now rewrite Pos.eqb_refl|reflexivity]. Qed.

Lemma number_neq_false a b : number_neq a b = false <-> a = b.
Proof. unfold number_neq. rewrite negb_false_iff. apply Z.eqb_eq. Qed.

Lemma number_neq_true a b : number_neq a b = true <-> a <> b.
Proof. unfold number_neq. rewrite negb_true_iff. apply Z.eqb_neq. Qed.

(** A number that is not NaN does not differ from itself. *)
Lemma loose_neq_number_same (a : JsNumber) :
  a <> S754_nan -> loose_neq_number a a = false.
Proof.
  intros Ha. unfold loose_neq_number, SFeqb, SFcompare.
  destruct a as [[|]|[|]| |[|] m e]; try reflexivity; try contradiction;
    now rewrite Z.compare_refl, Pos.compare_cont_refl.
Qed.

(** NaN differs from every number, and a zero from no zero. *)
Lemma loose_neq_number_nan (a : JsNumber) :
  loose_neq_number S754_nan a = true /\ loose_neq_number a S754_nan = true.
Proof. unfold loose_neq_number, SFeqb. now destruct a as [[|]|[|]| |[|] m e]. Qed.

Lemma loose_neq_number_zeros (s s' : bool) :
  loose_neq_number (S754_zero s) (S754_zero s') = false.
Proof. reflexivity. Qed.

(** *** The setters one by one *)

Lemma set_currentScore_does_nothing v this : set_currentScore v this = this.
Proof. unfold set_currentScore, get_currentScore. now rewrite loose_neq_same. Qed.

Lemma set_correct_does_nothing v this : set_correct v this = this.
Proof. unfold set_correct, get_correct. now rewrite loose_neq_same. Qed.

Lemma set_userClicks_does_nothing v this : set_userClicks v this = this.
Proof. unfold set_userClicks, get_userClicks. now rewrite loose_neq_same. Qed.

Lemma set_leaderboard_does_nothing v this : set_leaderboard v this = this.
Proof. unfold set_leaderboard, get_leaderboard. now rewrite loose_neq_same. Qed.

Lemma set_difficulty_same this : set_difficulty (defficulty this) this = this.
Proof.
  unfold set_difficulty, defficulty.
  now rewrite (proj2 (number_neq_false _ _) eq_refl).
Qed.

Lemma set_difficulty_new v this :
  defficulty this <> v ->
  set_difficulty v this
  = mkController (with_difficulty v (_model this))
                 (emitted this ++ [difficultyChange v]).
Proof.
  intros H. unfold set_difficulty. unfold defficulty in H.
  now rewrite (proj2 (number_neq_true _ _) H).
Qed.

Lemma set_timer_same v this :
  loose_neq_number (get_timer this) v = false -> set_timer v this = this.
Proof. unfold set_timer, get_timer. now intros ->. Qed.

Lemma set_timer_new v this :
  loose_neq_number (get_timer this) v = true ->
  set_timer v this
  = mkController (with_timer v (_model this)) (emitted this ++ [timerChange v]).
Proof. unfold set_timer, get_timer. now intros ->. Qed.

(** What a setter of a number leaves in its property. *)
Lemma defficulty_set_difficulty v this : defficulty (set_difficulty v this) = v.
Proof.
  destruct (Z.eq_dec (defficulty this) v) as [<-|H].
  - now rewrite set_difficulty_same.
  - now rewrite set_difficulty_new.
Qed.

Lemma get_timer_set_timer v this :
  get_timer (set_timer v this)
  = if loose_neq_number (get_timer this) v then v else get_timer this.
Proof.
  destruct (loose_neq_number (get_timer this) v) eqn:E.
  - now rewrite set_timer_new.
  - now rewrite set_timer_same.
Qed.

(** C7. The setter of the difficulty, invoked with the cached value, emits
    nothing and changes nothing; invoked with another value it emits exactly
    one [difficultyChange] with that value; and the accessor returns the
    value that was set. *)
Theorem difficulty_setter_emits_on_change
    (this : DanceAreaController) (v : Difficulty) :
  (defficulty this = v -> set_difficulty v this = this) /\
  (defficulty this <> v ->
   emitted (set_difficulty v this) = emitted this ++ [difficultyChange v]) /\
  defficulty (set_difficulty v this) = v.
Proof.
  split; [|split].
  - intros <-. apply set_difficulty_same.
  - intros H. now rewrite set_difficulty_new.
  - apply defficulty_set_difficulty.
Qed.

(** C9. The setters of [correct], [userClicks] and [leaderboard] compare the
    cached property with itself: whatever they are given, the model stays as
    it is and nothing is emitted. *)
Theorem self_comparing_setters_do_nothing
    (this : DanceAreaController)
    (correct' userClicks' : JsObject (list Arrow))
    (leaderboard' : JsObject (list ScoreObject)) :
  set_correct correct' this = this /\
  set_userClicks userClicks' this = this /\
  set_leaderboard leaderboard' this = this.
Proof.
  split; [|split].
  - apply set_correct_does_nothing.
  - apply set_userClicks_does_nothing.
  - apply set_leaderboard_does_nothing.
Qed.

(** *** [updateFrom] *)

Lemma set_difficulty_frame v this :
  let this' := set_difficulty v this in
  id (_model this') = id (_model this) /\
  timer (_model this') = timer (_model this) /\
  currentScore (_model this') = currentScore (_model this) /\
  correct (_model this') = correct (_model this) /\
  userClicks (_model this') = userClicks (_model this) /\
  leaderboard (_model this') = leaderboard (_model this).
Proof.
  cbv zeta. unfold set_difficulty.
  destruct (number_neq _ _); repeat split.
Qed.

Lemma set_timer_frame v this :
  let this' := set_timer v this in
  id (_model this') = id (_model this) /\
  difficulty (_model this') = difficulty (_model this) /\
  currentScore (_model this') = currentScore (_model this) /\
  correct (_model this') = correct (_model this) /\
  userClicks (_model this') = userClicks (_model this) /\
  leaderboard (_model this') = leaderboard (_model this).
Proof.
  cbv zeta. unfold set_timer.
  destruct (loose_neq_number _ _); repeat split.
Qed.

(** What [updateFrom] does to each property of the model: the difficulty
    is taken from the update, the timer too when it differs from the cached
    one, everything else stays. *)
Lemma updateFrom_model updatedModel this :
  _model (updateFrom updatedModel this)
  = mkModel (id (_model this)) (difficulty updatedModel)
            (correct (_model this)) (userClicks (_model this))
            (leaderboard (_model this)) (currentScore (_model this))
            (if loose_neq_number (timer (_model this)) (timer updatedModel)
             then timer updatedModel else timer (_model this)).
Proof.
  unfold updateFrom. cbv zeta. rewrite set_currentScore_does_nothing.
  generalize (get_timer_set_timer (timer updatedModel)
                (set_difficulty (difficulty updatedModel) this)).
  generalize (set_timer_frame (timer updatedModel)
                (set_difficulty (difficulty updatedModel) this)).
  generalize (defficulty_set_difficulty (difficulty updatedModel) this).
  generalize (set_difficulty_frame (difficulty updatedModel) this).
  cbv zeta. unfold get_timer, defficulty.
  destruct (_model (set_timer _ _)) as [i d c u l s t].
  cbn [id difficulty correct userClicks leaderboard currentScore timer].
  intros (-> & Ht & -> & -> & -> & ->) Hd (-> & -> & -> & -> & -> & ->) ->.
  now rewrite Hd, Ht.
Qed.

(** The model handed to the constructor is the object the controller keeps:
    an update from that very object finds every value in place, unless the
    timer is NaN. *)
Lemma updateFrom_own_model this :
  get_timer this <> S754_nan ->
  updateFrom (danceAreaModel this) this = this.
Proof.
  intros Hnan. unfold updateFrom, danceAreaModel. cbv zeta.
  rewrite set_currentScore_does_nothing.
  change (difficulty (_model this)) with (defficulty this).
  rewrite set_difficulty_same.
  change (timer (_model this)) with (get_timer this).
  apply set_timer_same. now apply loose_neq_number_same.
Qed.

(** C6, at a broadcast that differs from the cached model in every property:
    the difficulty and the timer are taken over and their two events are
    emitted, [correct], [userClicks] and [leaderboard] stay, and so does the
    current score, for which no event is emitted either. *)
Theorem updateFrom_keeps_stale_currentScore :
  let this' := updateFrom Samples.broadcast_model Samples.controller in
  defficulty this' = 10 /\
  get_timer this' = num 200 /\
  get_correct this' = get_correct Samples.controller /\
  get_userClicks this' = get_userClicks Samples.controller /\
  get_leaderboard this' = get_leaderboard Samples.controller /\
  get_currentScore this' = Some (mkRef 4 (mkScore "alice" 1)) /\
  get_currentScore this' <> currentScore Samples.broadcast_model /\
  emitted this' = [difficultyChange 10; timerChange (num 200)].
Proof.
  cbv zeta. vm_compute. repeat split. discriminate.
Qed.

(** *** The id *)

Lemma invoke_id op this : get_id (invoke op this) = get_id this.
Proof.
  unfold get_id. destruct op as [v|v|v|v|v|v|m]; cbn [invoke].
  - apply set_difficulty_frame.
  - apply set_timer_frame.
  - now rewrite set_currentScore_does_nothing.
  - now rewrite set_correct_does_nothing.
  - now rewrite set_userClicks_does_nothing.
  - now rewrite set_leaderboard_does_nothing.
  - now rewrite updateFrom_model.
Qed.

(** C10. No sequence of setter invocations and [updateFrom] calls changes
    the id of a controller: it stays the id of the model the controller was
    constructed with. *)
Theorem id_is_never_changed
    (ops : list Operation) (this : DanceAreaController)
    (danceAreaModel : DanceAreaModel) :
  get_id (invoke_all ops this) = get_id this /\
  get_id (invoke_all ops (new_DanceAreaController danceAreaModel))
  = id danceAreaModel.
Proof.
  assert (H : forall c, get_id (invoke_all ops c) = get_id c).
  { unfold invoke_all. induction ops as [|op ops IH]; intros c; [reflexivity|].
    cbn [fold_left]. rewrite IH. apply invoke_id. }
  split; [apply H|]. now rewrite H.
Qed.

End FrontendFacts.

(** ** More of the server side *)

Module TownServiceMore.
Import JsNum CoveyTownSocket TownService JsNumFacts TownServiceFacts Drawing.

(** *** What the constructor draws *)

(** The arrow made from the three outcomes that follow position [p]. *)
Lemma random_arrow_at g :
  random_arrow g = random_arrow (mkRng (outcomes g) (position g)).
Proof. now destruct g. Qed.

Lemma push_arrows_explicit turns : forall correct g,
  push_arrows turns correct g =
  (correct ++ map (fun k => fst (random_arrow
                                   (mkRng (outcomes g) (position g + 3 * k)%nat)))
                  (seq 0 turns),
   mkRng (outcomes g) (position g + 3 * turns)%nat).
Proof.
  induction turns as [|turns IH]; intros correct g.
  - cbn [push_arrows seq map]. unfold ret. rewrite app_nil_r.
    destruct g as [o p]. cbn [outcomes position]. do 2 f_equal. lia.
  - rewrite push_arrows_step, IH.
    rewrite (random_arrow_unfold g). cbv zeta. cbn [fst snd outcomes position].
    rewrite <- app_assoc. cbn [app seq map]. f_equal.
    + f_equal. f_equal.
      * rewrite (random_arrow_at (mkRng _ _)). cbn [outcomes position].
        rewrite random_arrow_unfold. cbv zeta. cbn [fst outcomes position].
        replace (position g + 3 * 0)%nat with (position g) by lia.
        reflexivity.
      * rewrite <- seq_shift, map_map. apply map_ext. intros k.
        do 3 f_equal. lia.
    + f_equal. lia.
Qed.

(** X1. The constructor calls [Math.random] exactly 60 times, and the
    [k]-th arrow of [correct] is made from the three outcomes at the places
    [3k], [3k + 1] and [3k + 2] after the starting position, whatever the
    model object and the bounding box are. *)
Theorem constructor_draws_sixty_outcomes
    (model : ModelObject) (coordinates : BoundingBox) (g : Rng) :
  snd (new_DanceArea model coordinates g)
  = mkRng (outcomes g) (position g + 60)%nat /\
  _correct (fst (new_DanceArea model coordinates g))
  = map (fun k => fst (random_arrow
                         (mkRng (outcomes g) (position g + 3 * k)%nat)))
        (seq 0 20).
Proof.
  unfold new_DanceArea, bind, ret.
  change (Z.to_nat ARROWLENGTH) with 20%nat.
  rewrite push_arrows_explicit. cbn [fst snd _correct app]. split; reflexivity.
Qed.

(** X2. Every arrow can be drawn: for each direction, each glyph and each
    integer duration from 1 to 10 there are outcomes of [Math.random] from
    which one turn of the loop makes exactly that arrow; in particular the
    glyph is chosen independently of the direction. *)
Theorem every_arrow_can_be_drawn (d : ArrowDirection) (s : Display) (z : Z) :
  1 <= z <= 10 ->
  exists g, random_source g /\
            fst (random_arrow g) = mkArrow (Some s) (Some d) (num z).
Proof.
  intros Hz.
  exists (source_of (outcome_for_index (direction_index d))
                    (outcome_for_index (display_index s))
                    (outcome_for_duration z)).
  assert (H : z = 1 \/ z = 2 \/ z = 3 \/ z = 4 \/ z = 5 \/
              z = 6 \/ z = 7 \/ z = 8 \/ z = 9 \/ z = 10) by lia.
  clear Hz.
  repeat (destruct H as [-> | H]);
    try subst z; destruct d, s;
    (split; [intros [|[|n]]; vm_compute; reflexivity
            | vm_compute; reflexivity]).
Qed.

Lemma every_arrow_can_be_drawn_witness :
  exists g, random_source g /\
            fst (random_arrow g)
            = mkArrow (Some LeftwardsWhiteArrow) (Some D) (num 7).
Proof.
  apply (every_arrow_can_be_drawn D LeftwardsWhiteArrow 7). lia.
Defined.

(** X3. The constructor does not read [correct], [userClicks] and [timer]
    of the model object: two objects that differ in these only make the same
    area from the same outcomes. *)
Theorem constructor_ignores_progress_of_model
    (i : string) (d : option Difficulty)
    (c c' u u' : option (list Arrow))
    (l : option (list (option ScoreObject)))
    (s : option ScoreObject) (t t' : option Z)
    (coordinates : BoundingBox) (g : Rng) :
  new_DanceArea (mkModelObject i d c u l s t) coordinates g
  = new_DanceArea (mkModelObject i d c' u' l s t') coordinates g.
Proof.
  unfold new_DanceArea.
  cbn [obj_id obj_difficulty obj_leaderboard obj_currentScore]. reflexivity.
Qed.

(** X4. The leaderboard of a constructed area: ten empty slots when the
    model object has none, and the given one otherwise, an empty one too
    (an empty array is truthy).  The current score is taken as it is, [null]
    included, and there are neither clicks nor occupants. *)
Theorem constructor_leaderboard_default
    (model : ModelObject) (coordinates : BoundingBox) (g : Rng) :
  let a := fst (new_DanceArea model coordinates g) in
  (obj_leaderboard model = None ->
   List.length (_leaderboard a) = 10%nat /\
   Forall (fun slot => slot = None) (_leaderboard a)) /\
  (forall l, obj_leaderboard model = Some l -> _leaderboard a = l) /\
  _currentScore a = obj_currentScore model /\
  _userClicks a = [] /\ _occupants a = [].
Proof.
  cbv zeta. rewrite new_DanceArea_unfold.
  cbn [_leaderboard _currentScore _userClicks _occupants].
  split; [|split; [|repeat split]].
  - intros ->. cbn [or_array]. unfold new_Array. split.
    + apply repeat_length.
    + apply Forall_forall. intros slot Hin. now apply repeat_spec in Hin.
  - intros l ->. reflexivity.
Qed.

(** *** The factory *)

(** X5. [fromMapObject] throws exactly when the width or the height is
    missing or falsy, with the one message, and then it has not called
    [Math.random]; when it makes an area it has called it 60 times. *)
Theorem fromMapObject_throws_or_draws (mapObject : ITiledMapObject) (g : Rng) :
  let refused := falsy (mo_width mapObject) || falsy (mo_height mapObject) in
  (refused = true ->
   fromMapObject mapObject g = (Throw missing_width_height, g)) /\
  (refused = false ->
   (exists a, fst (fromMapObject mapObject g) = Ok a) /\
   snd (fromMapObject mapObject g) = mkRng (outcomes g) (position g + 60)%nat).
Proof.
  cbv zeta. unfold fromMapObject.
  destruct (mo_width mapObject) as [w|]; [|split; [reflexivity|discriminate]].
  destruct (mo_height mapObject) as [h|].
  2:{ split; [reflexivity|]. rewrite orb_true_r. discriminate. }
  destruct (falsy (Some w) || falsy (Some h)).
  - split; [reflexivity|discriminate].
  - split; [discriminate|]. intros _. unfold bind at 1 2.
    match goal with |- context [new_DanceArea ?m ?b g] =>
      generalize (constructor_draws_sixty_outcomes m b g);
      destruct (new_DanceArea m b g) as [a g'] end.
    cbn [fst snd]. intros [-> _]. unfold ret. cbn [fst snd].
    split; [now exists a|reflexivity].
Qed.

(** *** [updateModel] *)

(** X6. Writing the model of an area back into it changes nothing, and of
    two updates in a row only the second one counts; an update keeps the
    occupants and the bounding box. *)
Theorem updateModel_round_trip_and_overwrite
    (this : DanceArea) (m1 m2 : DanceAreaModel) :
  updateModel (toModel this) this = this /\
  updateModel m2 (updateModel m1 this) = updateModel m2 this /\
  _occupants (updateModel m1 this) = _occupants this /\
  boundingBox (updateModel m1 this) = boundingBox this.
Proof. destruct this. repeat split. Qed.

(** *** [remove] *)

Lemma filter_twice {A : Type} (f : A -> bool) (l : list A) :
  filter f (filter f l) = filter f l.
Proof.
  induction l as [|a l IH]; [reflexivity|]. cbn [filter].
  destruct (f a) eqn:E; [|exact IH]. cbn [filter]. now rewrite E, IH.
Qed.

(** X7. With the base class as the spec describes it: whoever is removed
    and whoever is left, [remove] keeps the id, the bounding box and the
    leaderboard, leaves only players that were occupants and not the removed
    one, and clears the area reference of the player.  It sends the change
    of location once and two models of the area: the one the base class
    sends on the change of occupants, which is the model before the call,
    and, as the last event, the model of the area as it is after the
    call. *)
Theorem remove_keeps_identity_and_leaderboard (player : Player) (this : DanceArea) :
  let this' := fst (fst (remove player this)) in
  let player' := snd (fst (remove player this)) in
  let sent := snd (remove player this) in
  area_id this' = area_id this /\
  boundingBox this' = boundingBox this /\
  _leaderboard this' = _leaderboard this /\
  ~ In (player_id player) (_occupants this') /\
  incl (_occupants this') (_occupants this) /\
  player_interactableID player' = None /\
  sent = snd (InteractableArea_remove player this)
         ++ [interactableUpdate (toModel this')] /\
  filter is_interactableUpdate sent
  = [interactableUpdate (toModel this); interactableUpdate (toModel this')] /\
  filter (fun ev => negb (is_interactableUpdate ev)) sent
  = [playerMoved player'].
Proof.
  cbv zeta. rewrite remove_sends, remove_unfold. cbv zeta. cbn [fst snd].
  unfold InteractableArea_remove. cbn [fst snd].
  set (keep := fun eachPlayer => negb (String.eqb eachPlayer (player_id player))).
  assert (Hout : ~ In (player_id player) (filter keep (_occupants this))).
  { intros Hin. apply filter_In in Hin. destruct Hin as [_ Hk].
    unfold keep in Hk. now rewrite String.eqb_refl in Hk. }
  assert (Hincl : incl (filter keep (_occupants this)) (_occupants this)).
  { intros q Hin. now apply filter_In in Hin. }
  destruct (List.length (filter keep (_occupants this)) =? 0)%nat eqn:E;
    cbn [reset area_id boundingBox _leaderboard _occupants
         player_interactableID];
    repeat split; assumption.
Qed.

(** X8. With the base class as the spec describes it: removing the same
    player a second time leaves the area as the first removal left it. *)
Theorem remove_twice (player : Player) (this : DanceArea) :
  fst (fst (remove player (fst (fst (remove player this)))))
  = fst (fst (remove player this)).
Proof.
  rewrite (remove_unfold player this). cbv zeta. cbn [fst].
  set (keep := fun eachPlayer => negb (String.eqb eachPlayer (player_id player))).
  destruct (List.length (filter keep (_occupants this)) =? 0)%nat eqn:E;
    rewrite remove_unfold; cbv zeta; cbn [fst];
    cbn [reset area_id boundingBox _occupants _difficulty _correct _userClicks
         _leaderboard _currentScore _timer];
    fold keep; rewrite filter_twice, E; reflexivity.
Qed.

End TownServiceMore.

(** ** More of the client side *)

Module FrontendMore.
Import JsNum CoveyTownSocket Frontend FrontendFacts Listening.

(** *** The setters *)

(** X9. The setter of the timer compares the cached number with the one
    it is given by [!=].  When they differ it stores the given one, changes
    no other property and emits exactly one [timerChange] with it; when
    they do not, it changes nothing and emits nothing.  So a call with the
    cached number does nothing unless that number is NaN, in which case it
    stores and emits again; and a zero over a cached zero of the other sign
    is not stored. *)
Theorem timer_setter_emits_on_change (this : DanceAreaController) (v : JsNumber) :
  (loose_neq_number (get_timer this) v = true ->
   emitted (set_timer v this) = emitted this ++ [timerChange v] /\
   _model (set_timer v this) = with_timer v (_model this) /\
   get_timer (set_timer v this) = v) /\
  (loose_neq_number (get_timer this) v = false -> set_timer v this = this) /\
  (get_timer this <> S754_nan -> set_timer (get_timer this) this = this) /\
  (get_timer this = S754_nan ->
   emitted (set_timer (get_timer this) this)
   = emitted this ++ [timerChange S754_nan]) /\
  (forall s s', get_timer this = S754_zero s ->
                set_timer (S754_zero s') this = this).
Proof.
  split; [|split; [|split; [|split]]].
  - intros H. now rewrite set_timer_new.
  - apply set_timer_same.
  - intros H. apply set_timer_same. now apply loose_neq_number_same.
  - intros H. rewrite H. rewrite set_timer_new; [reflexivity|].
    rewrite H. apply loose_neq_number_nan.
  - intros s s' H. apply set_timer_same. rewrite H.
    apply loose_neq_number_zeros.
Qed.

(** X10. The setter of the current score never stores what it is given and
    never emits: its guard compares the cached score with itself.  Given a
    score that is not the cached one, the accessor still returns the cached
    one. *)
Theorem currentScore_setter_stores_nothing
    (this : DanceAreaController) (v : JsObject ScoreObject) :
  set_currentScore v this = this /\
  (loose_neq (get_currentScore this) v = true ->
   loose_neq (get_currentScore (set_currentScore v this)) v = true).
Proof.
  split; [apply set_currentScore_does_nothing|].
  now rewrite set_currentScore_does_nothing.
Qed.

(** *** [updateFrom] *)

Lemma updateFrom_emitted updatedModel this :
  emitted (updateFrom updatedModel this)
  = emitted this
    ++ (if number_neq (defficulty this) (difficulty updatedModel)
        then [difficultyChange (difficulty updatedModel)] else [])
    ++ (if loose_neq_number (get_timer this) (timer updatedModel)
        then [timerChange (timer updatedModel)] else []).
Proof.
  unfold updateFrom. cbv zeta. rewrite set_currentScore_does_nothing.
  unfold set_timer.
  destruct (set_difficulty_frame (difficulty updatedModel) this)
    as (_ & -> & _).
  unfold defficulty, get_timer, set_difficulty.
  destruct (number_neq (difficulty (_model this)) (difficulty updatedModel));
    destruct (loose_neq_number (timer (_model this)) (timer updatedModel));
    cbn [emit assign emitted]; rewrite ?app_nil_r, <- ?app_assoc; reflexivity.
Qed.

(** X11. What [updateFrom] does, for every controller and every update: the
    difficulty becomes that of the update; the timer becomes that of the
    update when the two differ by [!=] and stays otherwise (so NaN is stored
    again, and a zero of the other sign is not); every other property of the
    model stays.  The events emitted are a [difficultyChange] if the
    difficulty differed, then a [timerChange] if the timer differed by [!=],
    and nothing else. *)
Theorem updateFrom_takes_two_numbers
    (updatedModel : DanceAreaModel) (this : DanceAreaController) :
  _model (updateFrom updatedModel this)
  = with_timer
      (if loose_neq_number (get_timer this) (timer updatedModel)
       then timer updatedModel else get_timer this)
      (with_difficulty (difficulty updatedModel) (_model this)) /\
  emitted (updateFrom updatedModel this)
  = emitted this
    ++ (if number_neq (defficulty this) (difficulty updatedModel)
        then [difficultyChange (difficulty updatedModel)] else [])
    ++ (if loose_neq_number (get_timer this) (timer updatedModel)
        then [timerChange (timer updatedModel)] else []).
Proof.
  split; [|apply updateFrom_emitted].
  rewrite updateFrom_model. reflexivity.
Qed.

(** X12. Applying the same update a second time changes nothing and emits
    nothing more, provided the timer of the update is not NaN; so does an
    update from the controller's own model, provided the cached timer is
    not NaN.  With a NaN timer every further application of the update
    emits one more [timerChange]. *)
Theorem updateFrom_twice
    (updatedModel : DanceAreaModel) (this : DanceAreaController) :
  (timer updatedModel <> S754_nan ->
   updateFrom updatedModel (updateFrom updatedModel this)
   = updateFrom updatedModel this) /\
  (get_timer this <> S754_nan ->
   updateFrom (danceAreaModel this) this = this) /\
  (timer updatedModel = S754_nan ->
   emitted (updateFrom updatedModel (updateFrom updatedModel this))
   = emitted (updateFrom updatedModel this) ++ [timerChange S754_nan]).
Proof.
  set (this1 := updateFrom updatedModel this).
  assert (Hd : defficulty this1 = difficulty updatedModel)
    by (unfold defficulty, this1; now rewrite updateFrom_model).
  assert (Ht : get_timer this1
               = if loose_neq_number (get_timer this) (timer updatedModel)
                 then timer updatedModel else get_timer this)
    by (unfold get_timer, this1; now rewrite updateFrom_model).
  split; [|split; [apply updateFrom_own_model|]].
  - intros Hnan. unfold updateFrom at 1. cbv zeta.
    rewrite set_currentScore_does_nothing.
    rewrite <- Hd, set_difficulty_same. apply set_timer_same. rewrite Ht.
    destruct (loose_neq_number (get_timer this) (timer updatedModel)) eqn:E;
      [now apply loose_neq_number_same|exact E].
  - intros Hnan. rewrite updateFrom_emitted. fold this1.
    rewrite Hd, (proj2 (number_neq_false _ _) eq_refl), Hnan.
    rewrite (proj2 (loose_neq_number_nan _)). reflexivity.
Qed.

(** *** Sequences of operations *)

Lemma invoke_frame op this :
  get_correct (invoke op this) = get_correct this /\
  get_userClicks (invoke op this) = get_userClicks this /\
  get_leaderboard (invoke op this) = get_leaderboard this /\
  get_currentScore (invoke op this) = get_currentScore this.
Proof.
  unfold get_correct, get_userClicks, get_leaderboard, get_currentScore.
  destruct op as [v|v|v|v|v|v|m]; cbn [invoke].
  - destruct (set_difficulty_frame v this) as (_ & _ & -> & -> & -> & ->).
    repeat split.
  - destruct (set_timer_frame v this) as (_ & _ & -> & -> & -> & ->).
    repeat split.
  - rewrite set_currentScore_does_nothing. repeat split.
  - rewrite set_correct_does_nothing. repeat split.
  - rewrite set_userClicks_does_nothing. repeat split.
  - rewrite set_leaderboard_does_nothing. repeat split.
  - rewrite updateFrom_model. repeat split.
Qed.

(** X13. Whatever setters and updates are invoked on a controller, in
    whatever order, its [correct], [userClicks], [leaderboard] and
    [currentScore] stay what the model had at construction. *)
Theorem four_properties_never_change
    (ops : list Operation) (danceAreaModel : DanceAreaModel) :
  let this := invoke_all ops (new_DanceAreaController danceAreaModel) in
  get_correct this = correct danceAreaModel /\
  get_userClicks this = userClicks danceAreaModel /\
  get_leaderboard this = leaderboard danceAreaModel /\
  get_currentScore this = currentScore danceAreaModel.
Proof.
  cbv zeta.
  assert (H : forall c,
    get_correct (invoke_all ops c) = get_correct c /\
    get_userClicks (invoke_all ops c) = get_userClicks c /\
    get_leaderboard (invoke_all ops c) = get_leaderboard c /\
    get_currentScore (invoke_all ops c) = get_currentScore c).
  { unfold invoke_all. induction ops as [|op ops IH]; intros c.
    - repeat split.
    - cbn [fold_left]. destruct (IH (invoke op c)) as (-> & -> & -> & ->).
      apply invoke_frame. }
  apply (H (new_DanceAreaController danceAreaModel)).
Qed.

(** The relation between a controller and a later state of it. *)

Lemma told_refl this : told_of_numbers this this.
Proof. exists []. rewrite app_nil_r. repeat split. Qed.

Lemma told_trans a b c :
  told_of_numbers a b -> told_of_numbers b c -> told_of_numbers a c.
Proof.
  intros (n1 & E1 & F1 & L1) (n2 & E2 & F2 & L2). exists (n1 ++ n2).
  split; [|split].
  - now rewrite E2, E1, app_assoc.
  - rewrite forallb_app, F1, F2. reflexivity.
  - unfold listen in *. now rewrite fold_left_app, L1.
Qed.

Lemma told_set_difficulty v this : told_of_numbers this (set_difficulty v this).
Proof.
  destruct (Z.eq_dec (defficulty this) v) as [<-|H].
  - rewrite set_difficulty_same. apply told_refl.
  - exists [difficultyChange v]. rewrite set_difficulty_new by exact H.
    repeat split.
Qed.

Lemma told_set_timer v this : told_of_numbers this (set_timer v this).
Proof.
  destruct (loose_neq_number (get_timer this) v) eqn:H.
  - exists [timerChange v]. rewrite set_timer_new by exact H.
    repeat split.
  - rewrite set_timer_same by exact H. apply told_refl.
Qed.

Lemma told_invoke op this : told_of_numbers this (invoke op this).
Proof.
  destruct op as [v|v|v|v|v|v|m]; cbn [invoke].
  - apply told_set_difficulty.
  - apply told_set_timer.
  - rewrite set_currentScore_does_nothing. apply told_refl.
  - rewrite set_correct_does_nothing. apply told_refl.
  - rewrite set_userClicks_does_nothing. apply told_refl.
  - rewrite set_leaderboard_does_nothing. apply told_refl.
  - unfold updateFrom. cbv zeta. rewrite set_currentScore_does_nothing.
    eapply told_trans; [apply told_set_difficulty|apply told_set_timer].
Qed.

Lemma told_invoke_all ops : forall this,
  told_of_numbers this (invoke_all ops this).
Proof.
  unfold invoke_all. induction ops as [|op ops IH]; intros this.
  - apply told_refl.
  - cbn [fold_left]. eapply told_trans; [apply told_invoke|apply IH].
Qed.

(** X14. No sequence of operations removes or alters an event that was
    emitted, and the events it adds are [difficultyChange] and [timerChange]
    events only: no [currentScoreChange], [correctChange],
    [userClicksChange] or [leaderboardChange] is ever emitted. *)
Theorem only_number_changes_are_emitted
    (ops : list Operation) (this : DanceAreaController) :
  exists new,
    emitted (invoke_all ops this) = emitted this ++ new /\
    forallb is_number_change new = true.
Proof.
  destruct (told_invoke_all ops this) as (new & E & F & _).
  exists new. split; assumption.
Qed.

(** X15. A listener that starts from the difficulty and the timer of the
    model a controller is constructed with, and takes over the value of
    every [difficultyChange] and [timerChange] it hears, knows the
    difficulty and the timer of the controller after any sequence of
    operations. *)
Theorem listener_knows_the_numbers
    (ops : list Operation) (danceAreaModel : DanceAreaModel) :
  let this := invoke_all ops (new_DanceAreaController danceAreaModel) in
  listen (emitted this) (difficulty danceAreaModel, timer danceAreaModel)
  = (defficulty this, get_timer this).
Proof.
  cbv zeta.
  destruct (told_invoke_all ops (new_DanceAreaController danceAreaModel))
    as (new & E & _ & Hl).
  rewrite E. exact Hl.
Qed.

End FrontendMore.
